(** * docusaurus-theme-search-typesense: the search page controller

    A shallow embedding of the logic of [SearchPageContent]
    (theme/SearchPage): the result-state reducer, the handler of the
    backend's 'result' event, the request builder [makeSearch], the
    initialisation of the per-plugin version selection, the two effects
    that schedule requests, the version selects and the conditions under
    which the parts of the results area are rendered.

    Conventions of the embedding.
    - A JavaScript value of type [T | null] is an [option T], [None] being
      [null].
    - Page counters and result counts are JavaScript numbers that hold small
      integers (page indices delivered by the backend); they are embedded as
      [Z], on which [+ 1] and [>] are exact.
    - An object used as a dictionary is a [gmap] with string keys.
      [Object.entries] enumerates every own key once; [map_to_list] stands
      for that enumeration. Its order is not the one of JavaScript, and the
      statements do not rely on it.
    - A function that can throw returns a [Completion].
    - The methods called on the search helper and the timers handed to the
      event loop are recorded, in order, in the state of the page. *)

From Stdlib Require Import ZArith String List Lia.
From stdpp Require Import base decidable option list gmap strings pretty fin_maps.

Local Open Scope string_scope.
Local Open Scope Z_scope.

(* ===================================================================== *)
(** ** JavaScript values *)
(* ===================================================================== *)

Inductive JsError : Type := TypeError.

(** Result of evaluating code that may throw. *)
Inductive Completion (A : Type) : Type :=
| Normal (a : A)
| Throw (e : JsError).
Arguments Normal {A} a.
Arguments Throw {A} e.

Definition bindC {A B : Type} (c : Completion A) (k : A -> Completion B)
  : Completion B :=
  match c with
  | Normal a => k a
  | Throw e => Throw e
  end.

Notation "x <-! c ;; k" := (bindC c (fun x => k))
  (at level 100, c at next level, right associativity).

(** [Array.prototype.map] with a callback that may throw: elements are
    visited left to right and the first exception aborts the traversal. *)
Fixpoint mapC {A B : Type} (f : A -> Completion B) (l : list A)
  : Completion (list B) :=
  match l with
  | [] => Normal []
  | a :: l' => b <-! f a ;; bs <-! mapC f l' ;; Normal (b :: bs)
  end.

(** ToNumber on [number | null]: [null] converts to [+0]. *)
Definition ToNumber (v : option Z) : Z :=
  match v with
  | Some n => n
  | None => 0
  end.

(** ToBoolean on a string: only the empty string is falsy. *)
Definition truthy_string (s : string) : bool :=
  match s with
  | EmptyString => false
  | String _ _ => true
  end.

(** ToBoolean on [number | null]: [null] and [0] are falsy. *)
Definition truthy_number (v : option Z) : bool :=
  match v with
  | Some n => negb (n =? 0)
  | None => false
  end.

(** [s.replace(/pat/g, rep)] for a pattern without metacharacters: the
    occurrences of [pat] are replaced from left to right, without overlap.
    [skip] counts the characters of a matched occurrence still to be
    dropped. *)
Fixpoint replace_from (pat rep : string) (skip : nat) (s : string) : string :=
  match s with
  | EmptyString => EmptyString
  | String c rest =>
      match skip with
      | S k => replace_from pat rep k rest
      | O =>
          if String.prefix pat s
          then rep +:+ replace_from pat rep (Nat.pred (String.length pat)) rest
          else String c (replace_from pat rep O rest)
      end
  end.

Definition replace_all (pat rep s : string) : string :=
  replace_from pat rep O s.

(* ===================================================================== *)
(** ** Data model *)
(* ===================================================================== *)

(** One rendered result. [title] is [titles.pop()!]: it is [None]
    (undefined) when the hit highlights no hierarchy level. *)
Record Item : Type := {
  title : option string;
  url : string;
  summary : string;
  breadcrumbs : list string;
}.

Record ResultDispatcherState : Type := {
  items : list Item;
  query : option string;
  totalResults : option Z;
  totalPages : option Z;
  lastPage : option Z;
  hasMore : option bool;
  loading : option bool;
}.

Inductive ResultDispatcher : Type :=
| type_reset
| type_loading
| type_update (value : ResultDispatcherState)
| type_advance.

(** A version of a docs plugin instance, and the data of the instance. *)
Record GlobalVersion : Type := {
  name : string;
  label : string;
}.

Record GlobalPluginData : Type := {
  versions : list GlobalVersion;
}.

(** [new URL(url)]: the three components the handler reads. *)
Record URL : Type := {
  href : string;
  pathname : string;
  hash : string;
}.

(** A hit of the backend. [_highlightResult] maps an attribute to the
    [value] of its highlight; [_snippetResult] is [None] when the field is
    undefined, and holds [content?.value] otherwise. *)
Record Hit : Type := {
  hit_url : string;
  _highlightResult : gmap string string;
  _snippetResult : option (option string);
}.

(** The [hits] field of a result: an array or some other value. *)
Inductive JsHits : Type :=
| HitsArray (hits : list Hit)
| HitsOther.

Definition isArray (h : JsHits) : bool :=
  match h with
  | HitsArray _ => true
  | HitsOther => false
  end.

(** The [results] of the helper's 'result' event. *)
Record SearchResults : Type := {
  r_query : string;
  r_hits : JsHits;
  r_page : Z;
  r_nbHits : Z;
  r_nbPages : Z;
}.

(** The methods [SearchPageContent] calls on the search helper. *)
Inductive HelperCall : Type :=
| addDisjunctiveFacetRefinement (facet value : string)
| setQuery (q : string)
| setPage (page : Z)
| search.

(* ===================================================================== *)
(** ** useDocsSearchVersionsHelpers *)
(* ===================================================================== *)

(** The callback of the [reduce]:
    [{...acc, [pluginId]: pluginData.versions[0]!.name}].
    Reading [.name] of [versions[0]] throws a TypeError when the array is
    empty. *)
Definition initVersionStep (acc : gmap string string)
    (entry : string * GlobalPluginData) : Completion (gmap string string) :=
  match versions entry.2 with
  | v :: _ => Normal (<[entry.1 := name v]> acc)
  | [] => Throw TypeError
  end.

Fixpoint reduceC {A B : Type} (f : B -> A -> Completion B) (l : list A) (acc : B)
  : Completion B :=
  match l with
  | [] => Normal acc
  | a :: l' => acc' <-! f acc a ;; reduceC f l' acc'
  end.

(** The lazy initial value of the [searchVersions] state. *)
Definition initSearchVersions (allDocsData : gmap string GlobalPluginData)
  : Completion (gmap string string) :=
  reduceC initVersionStep (map_to_list allDocsData) ∅.

Definition setSearchVersion (pluginId searchVersion : string)
    (s : gmap string string) : gmap string string :=
  <[pluginId := searchVersion]> s.

Definition versioningEnabled (allDocsData : gmap string GlobalPluginData) : bool :=
  existsb (fun e : string * GlobalPluginData => (1 <? length (versions e.2))%nat)
          (map_to_list allDocsData).

(* ===================================================================== *)
(** ** The result-state reducer *)
(* ===================================================================== *)

Definition initialSearchResultState : ResultDispatcherState :=
  {| items := [];
     query := None;
     totalResults := None;
     totalPages := None;
     lastPage := None;
     hasMore := None;
     loading := None |}.

(** The reducer handed to [useReducer]; [searchQuery] is the query of the
    render whose closure the reducer is. *)
Definition reducer (searchQuery : string)
    (prevState : ResultDispatcherState) (data : ResultDispatcher)
  : ResultDispatcherState :=
  match data with
  | type_reset => initialSearchResultState
  | type_loading =>
      {| items := items prevState;
         query := query prevState;
         totalResults := totalResults prevState;
         totalPages := totalPages prevState;
         lastPage := lastPage prevState;
         hasMore := hasMore prevState;
         loading := Some true |}
  | type_update value =>
      if decide (Some searchQuery = query value) then
        {| items :=
             if decide (lastPage value = Some 0)
             then items value
             else items prevState ++ items value;
           query := query value;
           totalResults := totalResults value;
           totalPages := totalPages value;
           lastPage := lastPage value;
           hasMore := hasMore value;
           loading := loading value |}
      else prevState
  | type_advance =>
      let hasMore' :=
        ToNumber (lastPage prevState) + 1 <? ToNumber (totalPages prevState) in
      {| items := items prevState;
         query := query prevState;
         totalResults := totalResults prevState;
         totalPages := totalPages prevState;
         lastPage :=
           if hasMore'
           then Some (ToNumber (lastPage prevState) + 1)
           else lastPage prevState;
         hasMore := Some hasMore';
         loading := loading prevState |}
  end.

(* ===================================================================== *)
(** ** The handler of the helper's 'result' event *)
(* ===================================================================== *)

Definition sanitizeValue (value : string) : string :=
  replace_all "algolia-docsearch-suggestion--highlight" "search-result-match"
              value.

(** The [titles] array of a hit, before [pop]: the sanitized highlights of
    [hierarchy.lvl0] .. [hierarchy.lvl6], empty strings removed. *)
Definition hierarchyTitles (h : Hit) : list string :=
  filter (fun v : string => truthy_string v)
    ((fun lvl : nat =>
        match _highlightResult h !! ("hierarchy.lvl" +:+ pretty lvl) with
        | Some v => sanitizeValue v
        | None => ""
        end) <$> [0; 1; 2; 3; 4; 5; 6]%nat).

Section Handler.

(** [new URL(s)], which throws on a string that is no absolute URL, and
    [isRegexpStringMatch] of theme-common belong to the environment. *)
Variable parseURL : string -> Completion URL.
Variable isRegexpStringMatch : option string -> string -> bool.
(** [themeConfig.typesense.externalUrlRegex]. *)
Variable externalUrlRegex : option string.

(** The callback of [hits.map]. *)
Definition toItem (h : Hit) : Completion Item :=
  parsedURL <-! parseURL (hit_url h) ;;
  let titles := hierarchyTitles h in
  Normal
    {| title := last titles;
       url :=
         if isRegexpStringMatch externalUrlRegex (href parsedURL)
         then href parsedURL
         else pathname parsedURL +:+ hash parsedURL;
       summary :=
         match _snippetResult h with
         | Some (Some v) => sanitizeValue v +:+ "..."
         | _ => ""
         end;
       breadcrumbs := removelast titles |}.

(** The handler, as the list of actions it hands to
    [searchResultStateDispatcher]. *)
Definition on_result (results : SearchResults)
  : Completion (list ResultDispatcher) :=
  if bool_decide (r_query results = "") || negb (isArray (r_hits results))
  then Normal [type_reset]
  else
    match r_hits results with
    | HitsArray hits =>
        items' <-! mapC toItem hits ;;
        Normal
          [type_update
             {| items := items';
                query := Some (r_query results);
                totalResults := Some (r_nbHits results);
                totalPages := Some (r_nbPages results);
                lastPage := Some (r_page results);
                hasMore := Some (r_page results + 1 <? r_nbPages results);
                loading := Some false |}]
    | HitsOther => Throw TypeError
    end.

End Handler.

(* ===================================================================== *)
(** ** makeSearch and the effects *)
(* ===================================================================== *)

Definition versionTag (entry : string * string) : string :=
  "docs-" +:+ entry.1 +:+ "-" +:+ entry.2.

(** [makeSearch(page = 0)]: [None] is the omitted argument. *)
Definition makeSearch (currentLocale searchQuery : string)
    (searchVersions : gmap string string) (page : option Z)
  : list HelperCall :=
  [addDisjunctiveFacetRefinement "docusaurus_tag" "default";
   addDisjunctiveFacetRefinement "language" currentLocale]
  ++ ((fun entry => addDisjunctiveFacetRefinement "docusaurus_tag"
                      (versionTag entry))
        <$> map_to_list searchVersions)
  ++ [setQuery searchQuery; setPage (default 0 page); search].

(** The effect on [searchResultState.lastPage]: the calls it makes. In the
    branch that calls [makeSearch] the argument is a non-zero number. *)
Definition paginationEffect (currentLocale searchQuery : string)
    (searchVersions : gmap string string) (lastPage : option Z)
  : list HelperCall :=
  if negb (truthy_number lastPage) || bool_decide (lastPage = Some 0)
  then []
  else makeSearch currentLocale searchQuery searchVersions lastPage.

(** The facet refinements requested by a sequence of helper calls. *)
Definition refinements (calls : list HelperCall) : list (string * string) :=
  omap (fun c => match c with
                 | addDisjunctiveFacetRefinement f v => Some (f, v)
                 | _ => None
                 end) calls.

(** The searches a sequence of helper calls submits, each with the query and
    the page set when [search] is called. *)
Fixpoint requests_from (q : string) (p : Z) (calls : list HelperCall)
  : list (string * Z) :=
  match calls with
  | [] => []
  | addDisjunctiveFacetRefinement _ _ :: rest => requests_from q p rest
  | setQuery q' :: rest => requests_from q' p rest
  | setPage p' :: rest => requests_from q p' rest
  | search :: rest => (q, p) :: requests_from q p rest
  end.

Definition requests (calls : list HelperCall) : list (string * Z) :=
  requests_from "" 0 calls.

(** A search as it leaves [makeSearch]: the refinement calls made on the
    helper before [search] is called, in call order, and the query and the
    page set at that moment. *)
Record SubmittedSearch : Type := {
  applied_refinements : list (string * string);
  submitted_query : string;
  submitted_page : Z;
}.

Fixpoint searches_from (facets : list (string * string)) (q : string) (p : Z)
    (calls : list HelperCall) : list SubmittedSearch :=
  match calls with
  | [] => []
  | addDisjunctiveFacetRefinement f v :: rest =>
      searches_from (facets ++ [(f, v)]) q p rest
  | setQuery q' :: rest => searches_from facets q' p rest
  | setPage p' :: rest => searches_from facets q p' rest
  | search :: rest =>
      {| applied_refinements := facets;
         submitted_query := q;
         submitted_page := p |} :: searches_from facets q p rest
  end.

(** The searches submitted by calls made on a helper that has no refinement
    yet (the helper of a render is created without any). *)
Definition searches (calls : list HelperCall) : list SubmittedSearch :=
  searches_from [] "" 0 calls.

(* ===================================================================== *)
(** ** The page as a transition system *)
(* ===================================================================== *)

(** The state of the mounted component together with the event loop:
    [timeouts] holds the due time of every pending
    [setTimeout(() => makeSearch(), 300)], [helperCalls] the calls made on
    the helper so far. *)
Record Page : Type := {
  clock : nat;
  cur_searchQuery : string;
  cur_searchVersions : gmap string string;
  searchResultState : ResultDispatcherState;
  prevY : Z;
  timeouts : list nat;
  helperCalls : list HelperCall;
}.

Inductive PageEvent : Type :=
| setSearchQuery (q : string)
| selectVersion (pluginId searchVersion : string)
| elapse (ms : nat)
| helperResult (results : SearchResults)
| intersection (isIntersecting : bool) (currentY : Z).

Section PageMachine.

Variable parseURL : string -> Completion URL.
Variable isRegexpStringMatch : option string -> string -> bool.
Variable externalUrlRegex : option string.
Variable currentLocale : string.

(** A new reducer state is committed; the effect depending on [lastPage]
    runs when that field changed. *)
Definition commit (pg : Page) (st : ResultDispatcherState) : Page :=
  {| clock := clock pg;
     cur_searchQuery := cur_searchQuery pg;
     cur_searchVersions := cur_searchVersions pg;
     searchResultState := st;
     prevY := prevY pg;
     timeouts := timeouts pg;
     helperCalls :=
       helperCalls pg ++
       (if decide (lastPage st = lastPage (searchResultState pg))
        then []
        else paginationEffect currentLocale (cur_searchQuery pg)
               (cur_searchVersions pg) (lastPage st)) |}.

Definition dispatchAll (pg : Page) (actions : list ResultDispatcher) : Page :=
  commit pg (foldl (reducer (cur_searchQuery pg)) (searchResultState pg) actions).

Definition setTimeout (delay : nat) (pg : Page) : Page :=
  {| clock := clock pg;
     cur_searchQuery := cur_searchQuery pg;
     cur_searchVersions := cur_searchVersions pg;
     searchResultState := searchResultState pg;
     prevY := prevY pg;
     timeouts := timeouts pg ++ [(clock pg + delay)%nat];
     helperCalls := helperCalls pg |}.

(** The effect on [searchQuery] and [searchVersions]. *)
Definition queryEffect (pg : Page) : Page :=
  if truthy_string (cur_searchQuery pg)
  then setTimeout 300 (dispatchAll pg [type_reset; type_loading])
  else dispatchAll pg [type_reset].

(** A due timer runs its callback, [makeSearch()]. [makeSearch] is wrapped
    in [useEvent]: whenever it is called, the function of the latest render
    runs, with the query and the version selection of that render. *)
Definition fireTimeout (pg : Page) : list HelperCall :=
  makeSearch currentLocale (cur_searchQuery pg) (cur_searchVersions pg) None.

Definition step (pg : Page) (ev : PageEvent) : Page :=
  match ev with
  | setSearchQuery q =>
      if decide (q = cur_searchQuery pg) then pg
      else
        queryEffect
          {| clock := clock pg;
             cur_searchQuery := q;
             cur_searchVersions := cur_searchVersions pg;
             searchResultState := searchResultState pg;
             prevY := prevY pg;
             timeouts := timeouts pg;
             helperCalls := helperCalls pg |}
  | selectVersion pluginId searchVersion =>
      queryEffect
        {| clock := clock pg;
           cur_searchQuery := cur_searchQuery pg;
           cur_searchVersions :=
             setSearchVersion pluginId searchVersion (cur_searchVersions pg);
           searchResultState := searchResultState pg;
           prevY := prevY pg;
           timeouts := timeouts pg;
           helperCalls := helperCalls pg |}
  | elapse ms =>
      let t := (clock pg + ms)%nat in
      {| clock := t;
         cur_searchQuery := cur_searchQuery pg;
         cur_searchVersions := cur_searchVersions pg;
         searchResultState := searchResultState pg;
         prevY := prevY pg;
         timeouts := filter (fun due : nat => (t < due)%nat) (timeouts pg);
         helperCalls :=
           helperCalls pg ++
           concat ((fun _ => fireTimeout pg)
                     <$> filter (fun due : nat => (due <= t)%nat) (timeouts pg)) |}
  | helperResult results =>
      match on_result parseURL isRegexpStringMatch externalUrlRegex results with
      | Normal actions => dispatchAll pg actions
      | Throw _ => pg
      end
  | intersection isIntersecting currentY =>
      let pg' :=
        if isIntersecting && (currentY <? prevY pg)
        then dispatchAll pg [type_advance]
        else pg in
      {| clock := clock pg';
         cur_searchQuery := cur_searchQuery pg';
         cur_searchVersions := cur_searchVersions pg';
         searchResultState := searchResultState pg';
         prevY := currentY;
         timeouts := timeouts pg';
         helperCalls := helperCalls pg' |}
  end.

(** The component right after it mounted with query [q] and version
    selection [sv]: both effects have run once. *)
Definition mount (q : string) (sv : gmap string string) : Page :=
  queryEffect
    {| clock := 0%nat;
       cur_searchQuery := q;
       cur_searchVersions := sv;
       searchResultState := initialSearchResultState;
       prevY := 0;
       timeouts := [];
       helperCalls := [] |}.

Definition run (pg : Page) (evs : list PageEvent) : Page :=
  foldl step pg evs.

End PageMachine.

(* ===================================================================== *)
(** ** SearchVersionSelectList and the rendered page *)
(* ===================================================================== *)

(** An [<option>] and a [<select>] of the version column. The select's
    [onChange] calls [setSearchVersion] with [sel_key] and the value of the
    chosen option. *)
Record SelectOption : Type := {
  opt_label : string;
  opt_value : string;
}.

Record VersionSelect : Type := {
  sel_key : string;
  sel_defaultValue : option string;
  sel_options : list SelectOption;
}.

(** Docs plugin instances with more than one version. *)
Definition versionedPluginEntries (allDocsData : gmap string GlobalPluginData)
  : list (string * GlobalPluginData) :=
  filter (fun e : string * GlobalPluginData => (1 < length (versions e.2))%nat)
         (map_to_list allDocsData).

Definition SearchVersionSelectList (allDocsData : gmap string GlobalPluginData)
    (searchVersions : gmap string string) : list VersionSelect :=
  let entries := versionedPluginEntries allDocsData in
  (fun e : string * GlobalPluginData =>
     let labelPrefix :=
       if (1 <? length entries)%nat then e.1 +:+ ": " else "" in
     {| sel_key := e.1;
        sel_defaultValue := searchVersions !! e.1;
        sel_options :=
          (fun version =>
             {| opt_label := labelPrefix +:+ label version;
                opt_value := name version |}) <$> versions e.2 |})
    <$> entries.

(** ToBoolean on [boolean | null]. *)
Definition truthy_bool (b : option bool) : bool :=
  match b with
  | Some true => true
  | _ => false
  end.

(** What the returned element tree contains below the form: the argument
    of [documentsFoundPlural] when the count is shown, the result articles,
    and whether the "No results were found" paragraph, the spinner and the
    "Fetching new results..." loader (the observed sentinel) are present. *)
Record View : Type := {
  v_documentsFound : option Z;
  v_results : list Item;
  v_noResults : bool;
  v_spinner : bool;
  v_loader : bool;
}.

Definition render (searchQuery : string) (st : ResultDispatcherState) : View :=
  {| v_documentsFound :=
       if truthy_number (totalResults st) then totalResults st else None;
     v_results := if (0 <? length (items st))%nat then items st else [];
     v_noResults :=
       if (0 <? length (items st))%nat then false
       else truthy_string searchQuery && negb (truthy_bool (loading st));
     v_spinner :=
       if (0 <? length (items st))%nat then false
       else truthy_bool (loading st);
     v_loader := truthy_bool (hasMore st) |}.

(* ===================================================================== *)
(** ** Notions used in the statements, and concrete inputs *)
(* ===================================================================== *)

(** [{...S, lastPage, hasMore}] and [{...S, loading}]. *)
Definition with_paging (S : ResultDispatcherState)
    (lastPage' : option Z) (hasMore' : option bool) : ResultDispatcherState :=
  {| items := items S;
     query := query S;
     totalResults := totalResults S;
     totalPages := totalPages S;
     lastPage := lastPage';
     hasMore := hasMore';
     loading := loading S |}.

Definition with_loading (S : ResultDispatcherState) (loading' : option bool)
  : ResultDispatcherState :=
  {| items := items S;
     query := query S;
     totalResults := totalResults S;
     totalPages := totalPages S;
     lastPage := lastPage S;
     hasMore := hasMore S;
     loading := loading' |}.

(** [versions[0]?.name]. *)
Definition firstVersionName (pluginData : GlobalPluginData) : option string :=
  name <$> head (versions pluginData).

(** A log of helper calls that consists of whole [makeSearch] traces. *)
Definition search_traces (currentLocale : string) (calls : list HelperCall)
  : Prop :=
  exists traces : list (list HelperCall),
    calls = concat traces /\
    Forall (fun tr => exists q sv page, tr = makeSearch currentLocale q sv page)
           traces.

(** [totalPages] and [lastPage] are null together or numbers together. *)
Definition paging_coherent (S : ResultDispatcherState) : Prop :=
  (totalPages S = None /\ lastPage S = None) \/
  (exists tp lp, totalPages S = Some tp /\ lastPage S = Some lp).

Definition action_coherent (data : ResultDispatcher) : Prop :=
  match data with
  | type_update value => paging_coherent value
  | _ => True
  end.

(** A state after the first page of "install" arrived: 3 pages in all. *)
Definition sample_item : Item :=
  {| title := Some "Installation"; url := "/docs/installation";
     summary := "..."; breadcrumbs := ["Getting started"] |}.

Definition sample_state : ResultDispatcherState :=
  {| items := [sample_item];
     query := Some "install";
     totalResults := Some 40;
     totalPages := Some 3;
     lastPage := Some 0;
     hasMore := Some true;
     loading := Some false |}.

(** A state the type of the reducer admits: 3 pages, [lastPage] null. *)
Definition null_lastPage_state : ResultDispatcherState :=
  with_paging sample_state None (Some true).

(** An environment for concrete runs: every URL has the same origin, and
    no external-URL pattern is configured. *)
Definition sample_parseURL (s : string) : Completion URL :=
  if String.prefix "https://example.org" s
  then Normal {| href := s;
                 pathname := String.substring 19 (String.length s) s;
                 hash := "" |}
  else Throw TypeError.

Definition sample_isRegexpStringMatch (re : option string) (s : string) : bool :=
  false.

Definition malformed_results : SearchResults :=
  {| r_query := "install"; r_hits := HitsOther;
     r_page := 0; r_nbHits := 0; r_nbPages := 0 |}.

(** A site with an unversioned docs instance and one that lists no
    version. *)
Definition docs_without_versions : gmap string GlobalPluginData :=
  {[ "default" := {| versions := [{| name := "current"; label := "Next" |}] |};
     "community" := {| versions := [] |} ]}.


(** [pat] occurs somewhere in [s]. *)
Fixpoint has_substring (pat s : string) : bool :=
  String.prefix pat s ||
  match s with
  | EmptyString => false
  | String _ rest => has_substring pat rest
  end.

(** [n] 'advance' actions in a row. *)
Definition advance_n (searchQuery : string) (n : nat)
    (S : ResultDispatcherState) : ResultDispatcherState :=
  Nat.iter n (fun S' => reducer searchQuery S' type_advance) S.

(** A version selection for the plugins of [allDocsData]: it has an entry
    for exactly these plugins, each naming one of the plugin's versions. *)
Definition valid_selection (allDocsData : gmap string GlobalPluginData)
    (searchVersions : gmap string string) : Prop :=
  dom searchVersions = dom allDocsData /\
  forall pluginId v, searchVersions !! pluginId = Some v ->
    exists pd, allDocsData !! pluginId = Some pd /\
               In v (name <$> versions pd).

(** The version selections the page can be in: the initial one, and those
    obtained by choosing an option of a rendered select. *)
Inductive selection_reachable (allDocsData : gmap string GlobalPluginData)
  : gmap string string -> Prop :=
| selection_initial (sv : gmap string string) :
    initSearchVersions allDocsData = Normal sv ->
    selection_reachable allDocsData sv
| selection_changed (sv : gmap string string) (sel : VersionSelect)
    (o : SelectOption) :
    selection_reachable allDocsData sv ->
    In sel (SearchVersionSelectList allDocsData sv) ->
    In o (sel_options sel) ->
    selection_reachable allDocsData
      (setSearchVersion (sel_key sel) (opt_value o) sv).

(** Every pending timer is due within 300 ms. *)
Definition timers_bounded (pg : Page) : Prop :=
  Forall (fun due : nat => (due <= clock pg + 300)%nat) (timeouts pg).

(** [{...pg, prevY}]. *)
Definition with_prevY (pg : Page) (y : Z) : Page :=
  {| clock := clock pg;
     cur_searchQuery := cur_searchQuery pg;
     cur_searchVersions := cur_searchVersions pg;
     searchResultState := searchResultState pg;
     prevY := y;
     timeouts := timeouts pg;
     helperCalls := helperCalls pg |}.

(** A site with an unversioned plugin and a plugin with two versions. *)
Definition docs_two_plugins : gmap string GlobalPluginData :=
  {[ "default" := {| versions := [{| name := "current"; label := "Next" |}] |};
     "community" :=
       {| versions := [{| name := "1.0.0"; label := "1.0" |};
                       {| name := "0.9.0"; label := "0.9" |}] |} ]}.

Definition sample_hit (path : string) : Hit :=
  {| hit_url := "https://example.org" +:+ path;
     _highlightResult :=
       {[ "hierarchy.lvl0" := "Docs";
          "hierarchy.lvl1" :=
            "<span class='algolia-docsearch-suggestion--highlight'>Install</span>" ]};
     _snippetResult := Some (Some "how to install") |}.

Definition sample_results (q : string) (page : Z) : SearchResults :=
  {| r_query := q;
     r_hits := HitsArray [sample_hit "/docs/a"; sample_hit "/docs/b"];
     r_page := page; r_nbHits := 6; r_nbPages := 3 |}.

(** A hit whose [url] is relative: [new URL] throws on it. *)
Definition relative_hit : Hit :=
  {| hit_url := "/docs/c"; _highlightResult := ∅; _snippetResult := None |}.

(** The select rendered for the "community" plugin of [docs_two_plugins]
    with the initial selection. *)
Definition community_select : VersionSelect :=
  {| sel_key := "community";
     sel_defaultValue := Some "1.0.0";
     sel_options := [{| opt_label := "1.0"; opt_value := "1.0.0" |};
                     {| opt_label := "0.9"; opt_value := "0.9.0" |}] |}.

(** The payload of the 'update' dispatched for [results], given the items
    built from its hits. *)
Definition update_value (its : list Item) (results : SearchResults)
  : ResultDispatcherState :=
  {| items := its;
     query := Some (r_query results);
     totalResults := Some (r_nbHits results);
     totalPages := Some (r_nbPages results);
     lastPage := Some (r_page results);
     hasMore := Some (r_page results + 1 <? r_nbPages results);
     loading := Some false |}.

(** What the page shows in a given state. *)
Definition shown (pg : Page) : View :=
  render (cur_searchQuery pg) (searchResultState pg).

(** Typing "install", receiving its first page, scrolling to the second
    page, then typing on. *)
Definition search_then_retype : list PageEvent :=
  [setSearchQuery "install"; elapse 300;
   helperResult (sample_results "install" 0);
   intersection true (-50);
   setSearchQuery "installation"].

(** The items built from the two hits of [sample_results]. *)
Definition sample_items : list Item :=
  (fun path =>
     {| title := Some "<span class='search-result-match'>Install</span>";
        url := path;
        summary := "how to install...";
        breadcrumbs := ["Docs"] |}) <$> ["/docs/a"; "/docs/b"].

(** The page after "install" was typed and the first of 3 pages arrived. *)
Definition sample_page : Page :=
  {| clock := 1000%nat;
     cur_searchQuery := "install";
     cur_searchVersions := {[ "default" := "current" ]};
     searchResultState := sample_state;
     prevY := 900;
     timeouts := [];
     helperCalls := [] |}.

(** The same page once the last of the 3 pages arrived. *)
Definition last_page : Page :=
  {| clock := 1000%nat;
     cur_searchQuery := "install";
     cur_searchVersions := {[ "default" := "current" ]};
     searchResultState := with_paging sample_state (Some 2) (Some false);
     prevY := 900;
     timeouts := [];
     helperCalls := [] |}.

(* ===================================================================== *)
(** * Properties of the reducer *)
(* ===================================================================== *)

Lemma reducer_advance (searchQuery : string) (S : ResultDispatcherState) :
  reducer searchQuery S type_advance =
  with_paging S
    (if ToNumber (lastPage S) + 1 <? ToNumber (totalPages S)
     then Some (ToNumber (lastPage S) + 1) else lastPage S)
    (Some (ToNumber (lastPage S) + 1 <? ToNumber (totalPages S))).
Proof. reflexivity. Qed.

(** C1. An 'update' whose payload carries a query other than the active
    [searchQuery] is discarded: the reducer returns the previous state
    itself, so no field changes. *)
Theorem update_stale_discarded
    (searchQuery : string) (S value : ResultDispatcherState) :
  query value <> Some searchQuery ->
  reducer searchQuery S (type_update value) = S.
Proof.
  intros Hstale. unfold reducer.
  destruct (decide (Some searchQuery = query value)) as [Heq | Hne].
  - exfalso. apply Hstale. symmetry. exact Heq.
  - reflexivity.
Qed.

Lemma update_stale_discarded_witness :
  query (with_paging sample_state (Some 1) (Some true)) <> Some "instal" /\
  reducer "instal" sample_state
    (type_update (with_paging sample_state (Some 1) (Some true)))
  = sample_state.
Proof.
  split.
  - simpl. discriminate.
  - apply (update_stale_discarded "instal"). simpl. discriminate.
Defined.

(** C2. An 'update' whose payload carries the active query replaces the
    state by the payload, except for [items]: the payload's items when its
    [lastPage] is 0, the previous items followed by the payload's items
    otherwise. *)
Theorem update_current_page
    (searchQuery : string) (S value : ResultDispatcherState) :
  query value = Some searchQuery ->
  let S' := reducer searchQuery S (type_update value) in
  (lastPage value = Some 0 -> items S' = items value) /\
  (lastPage value <> Some 0 -> items S' = (items S ++ items value)%list) /\
  query S' = query value /\
  totalResults S' = totalResults value /\
  totalPages S' = totalPages value /\
  lastPage S' = lastPage value /\
  hasMore S' = hasMore value /\
  loading S' = loading value.
Proof.
  intros Hq S'. subst S'. unfold reducer.
  destruct (decide (Some searchQuery = query value)) as [_ | Hne];
    [| congruence].
  cbn [items query totalResults totalPages lastPage hasMore loading].
  repeat split.
  - intros H0. destruct (decide (lastPage value = Some 0)); [reflexivity | contradiction].
  - intros Hn. destruct (decide (lastPage value = Some 0)); [contradiction | reflexivity].
Qed.

Lemma update_current_page_witness :
  query (with_paging sample_state (Some 1) (Some true)) = Some "install" /\
  items (reducer "install" sample_state
           (type_update (with_paging sample_state (Some 1) (Some true))))
  = [sample_item; sample_item].
Proof.
  split; [reflexivity |].
  apply (update_current_page "install" sample_state
           (with_paging sample_state (Some 1) (Some true)) eq_refl).
  simpl. discriminate.
Defined.

(** C3. On a state whose [totalPages] and [lastPage] are numbers, 'advance'
    computes [hasMore = totalPages > lastPage + 1]; when it holds [lastPage]
    is incremented and [hasMore] is true, otherwise [lastPage] stays and
    [hasMore] is false; nothing else changes. With 3 pages, page 0 advances
    to page 1 with more to come, and page 2 stays with nothing more. *)
Theorem advance_pages
    (searchQuery : string) (S : ResultDispatcherState) (tp lp : Z) :
  totalPages S = Some tp ->
  lastPage S = Some lp ->
  let S' := reducer searchQuery S type_advance in
  (tp > lp + 1 -> S' = with_paging S (Some (lp + 1)) (Some true)) /\
  (~ tp > lp + 1 -> S' = with_paging S (Some lp) (Some false)) /\
  (tp = 3 -> lp = 0 -> lastPage S' = Some 1 /\ hasMore S' = Some true) /\
  (tp = 3 -> lp = 2 -> lastPage S' = Some 2 /\ hasMore S' = Some false).
Proof.
  intros Htp Hlp S'. subst S'. rewrite reducer_advance, Htp, Hlp.
  cbn [ToNumber].
  repeat split; intros; subst;
    try (destruct (Z.ltb_spec (lp + 1) tp); [reflexivity || lia | reflexivity || lia]);
    reflexivity.
Qed.

Lemma advance_pages_witness :
  totalPages sample_state = Some 3 /\ lastPage sample_state = Some 0 /\
  lastPage (reducer "install" sample_state type_advance) = Some 1 /\
  hasMore (reducer "install" sample_state type_advance) = Some true.
Proof.
  split; [reflexivity | split; [reflexivity |]].
  apply (advance_pages "install" sample_state 3 0 eq_refl eq_refl); reflexivity.
Defined.

(** C6. 'reset' returns the initial state whatever the previous state is:
    no items, and every other field null. *)
Theorem reset_initial (searchQuery : string) (S : ResultDispatcherState) :
  reducer searchQuery S type_reset = initialSearchResultState /\
  items initialSearchResultState = [] /\
  query initialSearchResultState = None /\
  totalResults initialSearchResultState = None /\
  totalPages initialSearchResultState = None /\
  lastPage initialSearchResultState = None /\
  hasMore initialSearchResultState = None /\
  loading initialSearchResultState = None.
Proof. repeat split. Qed.

(** C8. 'loading' sets [loading] to true and preserves every other field. *)
Theorem loading_frame (searchQuery : string) (S : ResultDispatcherState) :
  let S' := reducer searchQuery S type_loading in
  loading S' = Some true /\
  items S' = items S /\
  query S' = query S /\
  totalResults S' = totalResults S /\
  totalPages S' = totalPages S /\
  lastPage S' = lastPage S /\
  hasMore S' = hasMore S.
Proof. repeat split. Qed.

(** C9, as stated, fails: with [totalPages = 3] and [lastPage = null] the
    comparison is [3 > null + 1], that is [3 > 1]; 'advance' sets [hasMore]
    to true and [lastPage] to 1. *)
Lemma advance_null_lastPage_cex :
  lastPage null_lastPage_state = None /\
  reducer "install" null_lastPage_state type_advance
  = with_paging null_lastPage_state (Some 1) (Some true) /\
  ~ (hasMore (reducer "install" null_lastPage_state type_advance) = Some false /\
     lastPage (reducer "install" null_lastPage_state type_advance)
     = lastPage null_lastPage_state).
Proof.
  split; [reflexivity | split; [reflexivity |]].
  intros [Hmore _]. vm_compute in Hmore. discriminate Hmore.
Qed.

(** C9, amended. 'advance' returns a state on every input; a null operand
    of [totalPages > lastPage + 1] counts as 0. The comparison is false,
    and the state comes back with [hasMore = false] and [lastPage]
    unchanged, when both fields are null (as in the initial state), when
    only [totalPages] is null and [lastPage >= -1], and when only
    [lastPage] is null and [totalPages <= 1]. When only [lastPage] is null
    and [totalPages > 1] the comparison is true: [lastPage] becomes 1 and
    [hasMore] true. *)
Theorem advance_null_operands (searchQuery : string) (S : ResultDispatcherState) :
  let S' := reducer searchQuery S type_advance in
  (totalPages S = None -> lastPage S = None ->
   S' = with_paging S None (Some false)) /\
  (forall lp, totalPages S = None -> lastPage S = Some lp -> -1 <= lp ->
   S' = with_paging S (Some lp) (Some false)) /\
  (forall tp, totalPages S = Some tp -> lastPage S = None -> tp <= 1 ->
   S' = with_paging S None (Some false)) /\
  (forall tp, totalPages S = Some tp -> lastPage S = None -> 1 < tp ->
   S' = with_paging S (Some 1) (Some true)) /\
  reducer searchQuery initialSearchResultState type_advance
  = with_paging initialSearchResultState None (Some false).
Proof.
  intros S'. subst S'. rewrite reducer_advance.
  repeat split.
  - intros -> ->. reflexivity.
  - intros lp -> -> Hlp. cbn [ToNumber].
    destruct (Z.ltb_spec (lp + 1) 0); [lia | reflexivity].
  - intros tp -> -> Htp. cbn [ToNumber].
    destruct (Z.ltb_spec (0 + 1) tp); [lia | reflexivity].
  - intros tp -> -> Htp. cbn [ToNumber].
    destruct (Z.ltb_spec (0 + 1) tp); [reflexivity | lia].
Qed.

Lemma advance_null_operands_witness :
  totalPages initialSearchResultState = None /\
  lastPage initialSearchResultState = None /\
  reducer "" initialSearchResultState type_advance
  = with_paging initialSearchResultState None (Some false).
Proof.
  split; [reflexivity | split; [reflexivity |]].
  apply (proj1 (advance_null_operands "" initialSearchResultState));
    reflexivity.
Defined.

(* ===================================================================== *)
(** * The 'result' handler *)
(* ===================================================================== *)

(** C7. A result whose query is the empty string, or whose [hits] is no
    array, makes the handler dispatch 'reset' and nothing else: no 'update'
    is dispatched, and the reducer state of the page becomes the initial
    one. *)
Theorem on_result_no_results
    (parseURL : string -> Completion URL)
    (isRegexpStringMatch : option string -> string -> bool)
    (externalUrlRegex : option string) (currentLocale : string)
    (results : SearchResults) (pg : Page) :
  r_query results = "" \/ isArray (r_hits results) = false ->
  on_result parseURL isRegexpStringMatch externalUrlRegex results
  = Normal [type_reset] /\
  (forall value, ~ In (type_update value) [type_reset]) /\
  searchResultState
    (step parseURL isRegexpStringMatch externalUrlRegex currentLocale pg
          (helperResult results))
  = initialSearchResultState.
Proof.
  intros Hbad.
  assert (Hreset : on_result parseURL isRegexpStringMatch externalUrlRegex results
                   = Normal [type_reset]).
  { unfold on_result. destruct Hbad as [Hq | Hhits].
    - rewrite Hq. reflexivity.
    - rewrite Hhits. rewrite orb_true_r. reflexivity. }
  split; [exact Hreset | split].
  - intros value [Habs | []]. discriminate Habs.
  - cbn [step]. rewrite Hreset. reflexivity.
Qed.

Lemma on_result_no_results_witness :
  (r_query malformed_results = "" \/ isArray (r_hits malformed_results) = false) /\
  on_result sample_parseURL sample_isRegexpStringMatch None malformed_results
  = Normal [type_reset].
Proof.
  split; [right; reflexivity |].
  apply (on_result_no_results sample_parseURL sample_isRegexpStringMatch None
           "en" malformed_results
           (mount "en" "install" ∅)).
  right. reflexivity.
Defined.

(* ===================================================================== *)
(** * Initial version selection *)
(* ===================================================================== *)

Lemma reduceC_initVersionStep_throw (l : list (string * GlobalPluginData)) :
  Exists (fun e => versions e.2 = []) l ->
  forall acc, reduceC initVersionStep l acc = Throw TypeError.
Proof.
  induction 1 as [e l He | e l _ IH]; intros acc; cbn [reduceC].
  - unfold initVersionStep. rewrite He. reflexivity.
  - unfold initVersionStep. destruct (versions e.2); [reflexivity |].
    cbn [bindC]. apply IH.
Qed.

Lemma reduceC_initVersionStep_normal (l : list (string * GlobalPluginData)) :
  NoDup l.*1 ->
  Forall (fun e => versions e.2 <> []) l ->
  forall acc, exists sv,
    reduceC initVersionStep l acc = Normal sv /\
    forall id, sv !! id =
               match (list_to_map l : gmap string GlobalPluginData) !! id with
               | Some pd => firstVersionName pd
               | None => acc !! id
               end.
Proof.
  induction l as [| [k pd] l IH]; intros Hnd Hall acc.
  - exists acc. split; [reflexivity |]. intros id.
    cbn [list_to_map foldr]. rewrite lookup_empty. reflexivity.
  - cbn [fmap list_fmap fst] in Hnd. apply NoDup_cons in Hnd as [Hk Hnd].
    apply Forall_cons in Hall as [Hpd Hall]. cbn [snd] in Hpd.
    cbn [reduceC]. unfold initVersionStep. cbn [fst snd].
    destruct (versions pd) as [| v vs] eqn:Hv; [contradiction |].
    cbn [bindC].
    destruct (IH Hnd Hall (<[k := name v]> acc)) as (sv & Hsv & Hlook).
    exists sv. split; [exact Hsv |]. intros id.
    rewrite Hlook. cbn [list_to_map foldr uncurry fst snd].
    destruct (decide (k = id)) as [<- | Hne].
    + rewrite lookup_insert_eq.
      rewrite (not_elem_of_list_to_map_1 _ _ Hk).
      rewrite lookup_insert_eq. unfold firstVersionName. rewrite Hv. reflexivity.
    + rewrite !lookup_insert_ne by exact Hne. reflexivity.
Qed.

(** C10. The initial version selection reads [versions[0].name] of every
    docs plugin instance. It fails with a TypeError exactly when some
    instance has an empty versions list; otherwise it maps every plugin id
    to the name of its first version. An input on which it fails exists. *)
Theorem initSearchVersions_needs_versions
    (allDocsData : gmap string GlobalPluginData) :
  ((exists id pd, allDocsData !! id = Some pd /\ versions pd = []) <->
   initSearchVersions allDocsData = Throw TypeError) /\
  (forall sv, initSearchVersions allDocsData = Normal sv ->
     forall id, sv !! id = allDocsData !! id ≫= firstVersionName) /\
  (exists bad : gmap string GlobalPluginData,
     (exists id pd, bad !! id = Some pd /\ versions pd = []) /\
     initSearchVersions bad = Throw TypeError).
Proof.
  assert (Hthrow : forall m : gmap string GlobalPluginData,
             (exists id pd, m !! id = Some pd /\ versions pd = []) ->
             initSearchVersions m = Throw TypeError).
  { intros m (id & pd & Hin & Hnil). unfold initSearchVersions.
    apply reduceC_initVersionStep_throw. apply Exists_exists.
    exists (id, pd). split; [| exact Hnil].
    apply elem_of_map_to_list. exact Hin. }
  assert (Hnormal : forall m : gmap string GlobalPluginData,
             Forall (fun e => versions e.2 <> []) (map_to_list m) ->
             exists sv, initSearchVersions m = Normal sv /\
               forall id, sv !! id = m !! id ≫= firstVersionName).
  { intros m Hall.
    destruct (reduceC_initVersionStep_normal (map_to_list m)
                (NoDup_fst_map_to_list m) Hall ∅) as (sv & Hsv & Hlook).
    exists sv. split; [exact Hsv |]. intros id. rewrite Hlook.
    rewrite list_to_map_to_list.
    destruct (m !! id); [reflexivity | apply lookup_empty]. }
  assert (Hdec : Forall (fun e : string * GlobalPluginData => versions e.2 <> [])
                        (map_to_list allDocsData) \/
                 Exists (fun e : string * GlobalPluginData => versions e.2 = [])
                        (map_to_list allDocsData)).
  { induction (map_to_list allDocsData) as [| e l [IH | IH]].
    - left. constructor.
    - destruct (versions e.2) as [| v vs] eqn:Hv.
      + right. left. exact Hv.
      + left. constructor; [rewrite Hv; discriminate | exact IH].
    - right. right. exact IH. }
  split; [split |split].
  - apply Hthrow.
  - intros Hfail. destruct Hdec as [Hall | Hex].
    + destruct (Hnormal _ Hall) as (sv & Hsv & _). congruence.
    + apply Exists_exists in Hex as ([id pd] & Hin & Hnil).
      exists id, pd. split; [| exact Hnil].
      apply elem_of_map_to_list. exact Hin.
  - intros sv Hsv. destruct Hdec as [Hall | Hex].
    + destruct (Hnormal _ Hall) as (sv' & Hsv' & Hlook).
      assert (sv = sv') by congruence. subst sv'. exact Hlook.
    + unfold initSearchVersions in Hsv.
      rewrite (reduceC_initVersionStep_throw _ Hex) in Hsv. discriminate Hsv.
  - exists docs_without_versions. split.
    + exists "community", {| versions := [] |}. split; reflexivity.
    + apply Hthrow. exists "community", {| versions := [] |}. split; reflexivity.
Qed.

Lemma initSearchVersions_needs_versions_witness :
  (exists id pd, docs_without_versions !! id = Some pd /\ versions pd = []) /\
  initSearchVersions docs_without_versions = Throw TypeError.
Proof.
  assert (Hex : exists id pd,
             docs_without_versions !! id = Some pd /\ versions pd = []).
  { exists "community", {| versions := [] |}. split; reflexivity. }
  split; [exact Hex |].
  apply (proj1 (proj1 (initSearchVersions_needs_versions docs_without_versions))).
  exact Hex.
Defined.

(* ===================================================================== *)
(** * Request construction *)
(* ===================================================================== *)

Lemma refinements_app (a b : list HelperCall) :
  refinements (a ++ b) = (refinements a ++ refinements b)%list.
Proof. unfold refinements. apply omap_app. Qed.

Lemma refinements_versions (l : list (string * string)) :
  refinements ((fun entry => addDisjunctiveFacetRefinement "docusaurus_tag"
                               (versionTag entry)) <$> l)
  = (fun entry => ("docusaurus_tag", versionTag entry)) <$> l.
Proof.
  induction l as [| e l IH]; [reflexivity |].
  cbn [fmap list_fmap]. unfold refinements in *. cbn [omap list_omap].
  f_equal. exact IH.
Qed.

Lemma requests_from_versions (q : string) (p : Z)
    (l : list (string * string)) (rest : list HelperCall) :
  requests_from q p
    (((fun entry => addDisjunctiveFacetRefinement "docusaurus_tag"
                      (versionTag entry)) <$> l) ++ rest)
  = requests_from q p rest.
Proof.
  induction l as [| e l IH]; [reflexivity |].
  cbn [fmap list_fmap app requests_from]. exact IH.
Qed.

Lemma requests_from_makeSearch (q0 : string) (p0 : Z)
    (currentLocale searchQuery : string) (searchVersions : gmap string string)
    (page : option Z) (rest : list HelperCall) :
  requests_from q0 p0
    (makeSearch currentLocale searchQuery searchVersions page ++ rest)
  = (searchQuery, default 0 page)
      :: requests_from searchQuery (default 0 page) rest.
Proof.
  unfold makeSearch. rewrite <- !app_assoc. cbn [app requests_from].
  rewrite requests_from_versions. reflexivity.
Qed.

Lemma makeSearch_refinements
    (currentLocale searchQuery : string) (searchVersions : gmap string string)
    (page : option Z) :
  refinements (makeSearch currentLocale searchQuery searchVersions page)
  = ("docusaurus_tag", "default") :: ("language", currentLocale)
      :: ((fun entry => ("docusaurus_tag", versionTag entry))
            <$> map_to_list searchVersions).
Proof.
  unfold makeSearch. rewrite !refinements_app, refinements_versions.
  cbn. rewrite app_nil_r. reflexivity.
Qed.

Lemma searches_from_versions (facets : list (string * string)) (q : string)
    (p : Z) (l : list (string * string)) (rest : list HelperCall) :
  searches_from facets q p
    (((fun entry => addDisjunctiveFacetRefinement "docusaurus_tag"
                      (versionTag entry)) <$> l) ++ rest)
  = searches_from
      (facets ++ ((fun entry => ("docusaurus_tag", versionTag entry)) <$> l))
      q p rest.
Proof.
  revert facets. induction l as [| e l IH]; intros facets.
  - cbn [fmap list_fmap app]. rewrite app_nil_r. reflexivity.
  - cbn [fmap list_fmap app searches_from]. rewrite IH, <- app_assoc.
    reflexivity.
Qed.

(** C5. A call of [makeSearch] first applies the facet refinements and then
    submits: its calls are the refinement calls followed by [setQuery],
    [setPage] and [search], in this order and with nothing after. The
    refinements are exactly [docusaurus_tag] by 'default', [language] by
    the current locale, and [docusaurus_tag] by one tag
    [docs-<pluginId>-<version>] for every entry of [searchVersions]; the one
    search it submits carries all of them, for the current query, at page 0
    when called without argument (the timer of the query effect) and at
    [lastPage] when called by the pagination effect, which calls it only
    for a non-zero [lastPage]. *)
Theorem makeSearch_request
    (currentLocale searchQuery : string) (searchVersions : gmap string string)
    (page : option Z) :
  let calls := makeSearch currentLocale searchQuery searchVersions page in
  let expected :=
    ("docusaurus_tag", "default") :: ("language", currentLocale)
      :: ((fun entry => ("docusaurus_tag", versionTag entry))
            <$> map_to_list searchVersions) in
  refinements calls = expected /\
  calls
  = (((fun fv : string * string => addDisjunctiveFacetRefinement fv.1 fv.2)
        <$> expected)
     ++ [setQuery searchQuery; setPage (default 0 page); search])%list /\
  searches calls
  = [{| applied_refinements := expected;
        submitted_query := searchQuery;
        submitted_page := default 0 page |}] /\
  length (refinements calls) = (2 + size searchVersions)%nat /\
  (forall f v,
     In (f, v) (refinements calls) <->
     (f = "docusaurus_tag" /\ v = "default") \/
     (f = "language" /\ v = currentLocale) \/
     (exists pluginId version,
        searchVersions !! pluginId = Some version /\
        f = "docusaurus_tag" /\
        v = "docs-" +:+ pluginId +:+ "-" +:+ version)) /\
  (forall pluginId version,
     searchVersions !! pluginId = Some version ->
     In ("docusaurus_tag", "docs-" +:+ pluginId +:+ "-" +:+ version)
        (refinements calls)) /\
  requests calls = [(searchQuery, default 0 page)] /\
  requests (makeSearch currentLocale searchQuery searchVersions None)
  = [(searchQuery, 0)] /\
  (forall lp, lp <> 0 ->
     paginationEffect currentLocale searchQuery searchVersions (Some lp)
     = makeSearch currentLocale searchQuery searchVersions (Some lp) /\
     requests (paginationEffect currentLocale searchQuery searchVersions (Some lp))
     = [(searchQuery, lp)] /\
     searches (paginationEffect currentLocale searchQuery searchVersions (Some lp))
     = [{| applied_refinements := expected;
           submitted_query := searchQuery;
           submitted_page := lp |}]) /\
  paginationEffect currentLocale searchQuery searchVersions None = [] /\
  paginationEffect currentLocale searchQuery searchVersions (Some 0) = [].
Proof.
  intros calls expected. subst calls expected.
  assert (Hreq : forall pg, requests (makeSearch currentLocale searchQuery
                                        searchVersions pg)
                            = [(searchQuery, default 0 pg)]).
  { intros pg. unfold requests.
    rewrite <- (app_nil_r (makeSearch _ _ _ _)).
    rewrite requests_from_makeSearch. reflexivity. }
  assert (Hsearch : forall pg,
            searches (makeSearch currentLocale searchQuery searchVersions pg)
            = [{| applied_refinements :=
                    ("docusaurus_tag", "default") :: ("language", currentLocale)
                      :: ((fun entry => ("docusaurus_tag", versionTag entry))
                            <$> map_to_list searchVersions);
                  submitted_query := searchQuery;
                  submitted_page := default 0 pg |}]).
  { intros pg. unfold searches, makeSearch. cbn [app searches_from].
    rewrite searches_from_versions. reflexivity. }
  assert (Hmem : forall pluginId version,
            searchVersions !! pluginId = Some version ->
            In ("docusaurus_tag", "docs-" +:+ pluginId +:+ "-" +:+ version)
               ((fun entry => ("docusaurus_tag", versionTag entry))
                  <$> map_to_list searchVersions)).
  { intros pluginId version Hin.
    apply list_elem_of_In. apply list_elem_of_fmap.
    exists (pluginId, version). split; [reflexivity |].
    apply elem_of_map_to_list. exact Hin. }
  rewrite makeSearch_refinements.
  split; [reflexivity |].
  split.
  { unfold makeSearch. cbn [fmap list_fmap fst snd app]. do 2 f_equal.
    f_equal. rewrite <- list_fmap_compose. reflexivity. }
  split; [apply Hsearch |].
  split.
  { cbn [length]. rewrite length_fmap, length_map_to_list. reflexivity. }
  split.
  { intros f v. split.
    - intros [Heq | [Heq | Hin]].
      + injection Heq as <- <-. left. split; reflexivity.
      + injection Heq as <- <-. right. left. split; reflexivity.
      + right. right.
        apply list_elem_of_In, list_elem_of_fmap in Hin as ([id ver] & Heq & Hin).
        injection Heq as -> ->. apply elem_of_map_to_list in Hin.
        exists id, ver. split; [exact Hin | split; reflexivity].
    - intros [[-> ->] | [[-> ->] | (id & ver & Hin & -> & ->)]].
      + left. reflexivity.
      + right. left. reflexivity.
      + right. right. apply Hmem. exact Hin. }
  split.
  { intros pluginId version Hin. right. right. apply Hmem. exact Hin. }
  split; [apply Hreq |].
  split; [apply Hreq |].
  split.
  { intros lp Hlp.
    assert (Heff : paginationEffect currentLocale searchQuery searchVersions
                     (Some lp)
                   = makeSearch currentLocale searchQuery searchVersions (Some lp)).
    { unfold paginationEffect. cbn [truthy_number].
      destruct (Z.eqb_spec lp 0) as [? | _]; [contradiction |].
      cbn [negb orb]. rewrite bool_decide_eq_false_2; [reflexivity |].
      intros Heq. injection Heq as Heq. contradiction. }
    split; [exact Heff |]. rewrite Heff.
    split; [apply Hreq | apply Hsearch]. }
  split; reflexivity.
Qed.

Lemma makeSearch_request_witness :
  (2 : Z) <> 0 /\
  searches (paginationEffect "en" "install" {[ "default" := "current" ]} (Some 2))
  = [{| applied_refinements :=
          [("docusaurus_tag", "default"); ("language", "en");
           ("docusaurus_tag", "docs-default-current")];
        submitted_query := "install";
        submitted_page := 2 |}].
Proof.
  assert (H : (2 : Z) <> 0) by discriminate.
  split; [exact H |].
  pose proof (makeSearch_request "en" "install" {[ "default" := "current" ]} None)
    as (_ & _ & _ & _ & _ & _ & _ & _ & Hpage & _).
  destruct (Hpage 2 H) as (_ & _ & Hs).
  rewrite Hs. vm_compute. reflexivity.
Defined.

(* ===================================================================== *)
(** * Scheduling of requests *)
(* ===================================================================== *)

Section Scheduling.

Variable parseURL : string -> Completion URL.
Variable isRegexpStringMatch : option string -> string -> bool.
Variable externalUrlRegex : option string.
Variable currentLocale : string.

Local Abbreviation step' := (step parseURL isRegexpStringMatch externalUrlRegex currentLocale).
Local Abbreviation run' := (run parseURL isRegexpStringMatch externalUrlRegex currentLocale).

Lemma truthy_string_nonempty (s : string) : s <> "" -> truthy_string s = true.
Proof. destruct s; [contradiction | reflexivity]. Qed.

Lemma paginationEffect_null (q : string) (sv : gmap string string) :
  paginationEffect currentLocale q sv None = [].
Proof. reflexivity. Qed.

(** The query effect for a non-empty query: the reducer state is the
    initial one with [loading] set, one more timer is pending, and no call
    is made on the helper. *)
Lemma queryEffect_nonempty (pg : Page) :
  cur_searchQuery pg <> "" ->
  queryEffect currentLocale pg =
  {| clock := clock pg;
     cur_searchQuery := cur_searchQuery pg;
     cur_searchVersions := cur_searchVersions pg;
     searchResultState := with_loading initialSearchResultState (Some true);
     prevY := prevY pg;
     timeouts := timeouts pg ++ [(clock pg + 300)%nat];
     helperCalls := helperCalls pg |}.
Proof.
  intros Hq. unfold queryEffect. rewrite (truthy_string_nonempty _ Hq).
  unfold setTimeout, dispatchAll, commit.
  cbn [foldl reducer clock cur_searchQuery cur_searchVersions searchResultState
       prevY timeouts helperCalls lastPage initialSearchResultState].
  destruct (decide (None = lastPage (searchResultState pg)));
    rewrite ?paginationEffect_null, app_nil_r; reflexivity.
Qed.

Lemma step_setSearchQuery_nonempty (pg : Page) (q : string) :
  q <> cur_searchQuery pg -> q <> "" ->
  step' pg (setSearchQuery q) =
  {| clock := clock pg;
     cur_searchQuery := q;
     cur_searchVersions := cur_searchVersions pg;
     searchResultState := with_loading initialSearchResultState (Some true);
     prevY := prevY pg;
     timeouts := timeouts pg ++ [(clock pg + 300)%nat];
     helperCalls := helperCalls pg |}.
Proof.
  intros Hne Hq. cbn [step].
  destruct (decide (q = cur_searchQuery pg)); [contradiction |].
  rewrite queryEffect_nonempty; [reflexivity | exact Hq].
Qed.


(** Every call ever made on the helper belongs to a call of [makeSearch]:
    the log of a run is a concatenation of [makeSearch] traces. *)
Lemma search_traces_nil : search_traces currentLocale [].
Proof. exists []. split; [reflexivity | constructor]. Qed.

Lemma search_traces_app (a b : list HelperCall) :
  search_traces currentLocale a -> search_traces currentLocale b ->
  search_traces currentLocale (a ++ b).
Proof.
  intros (ta & -> & Ha) (tb & -> & Hb). exists (ta ++ tb)%list. split.
  - symmetry. apply concat_app.
  - apply Forall_app. split; assumption.
Qed.

Lemma search_traces_makeSearch (q : string) (sv : gmap string string)
    (page : option Z) :
  search_traces currentLocale (makeSearch currentLocale q sv page).
Proof.
  exists [makeSearch currentLocale q sv page]. split.
  - cbn [concat]. symmetry. apply app_nil_r.
  - constructor; [| constructor]. exists q, sv, page. reflexivity.
Qed.

Lemma search_traces_commit (pg : Page) (st : ResultDispatcherState) :
  search_traces currentLocale (helperCalls pg) ->
  search_traces currentLocale (helperCalls (commit currentLocale pg st)).
Proof.
  intros Hpg. cbn [commit helperCalls]. apply search_traces_app; [exact Hpg |].
  destruct (decide (lastPage st = lastPage (searchResultState pg)));
    [apply search_traces_nil |].
  unfold paginationEffect.
  destruct (negb (truthy_number (lastPage st)) || bool_decide (lastPage st = Some 0));
    [apply search_traces_nil | apply search_traces_makeSearch].
Qed.

Lemma search_traces_queryEffect (pg : Page) :
  search_traces currentLocale (helperCalls pg) ->
  search_traces currentLocale (helperCalls (queryEffect currentLocale pg)).
Proof.
  intros Hpg. unfold queryEffect, dispatchAll.
  destruct (truthy_string (cur_searchQuery pg)).
  - cbn [setTimeout helperCalls]. apply search_traces_commit, Hpg.
  - apply search_traces_commit, Hpg.
Qed.

Lemma search_traces_fired (pg : Page) (due : list nat) :
  search_traces currentLocale
    (concat ((fun _ => fireTimeout currentLocale pg) <$> due)).
Proof.
  induction due as [| t due IH]; [apply search_traces_nil |].
  cbn [fmap list_fmap concat]. apply search_traces_app; [| exact IH].
  apply search_traces_makeSearch.
Qed.

Lemma search_traces_step (pg : Page) (ev : PageEvent) :
  search_traces currentLocale (helperCalls pg) ->
  search_traces currentLocale (helperCalls (step' pg ev)).
Proof.
  intros Hpg. destruct ev as [q | pluginId v | ms | results | isIntersecting y];
    cbn [step].
  - destruct (decide (q = cur_searchQuery pg)); [exact Hpg |].
    apply search_traces_queryEffect, Hpg.
  - apply search_traces_queryEffect, Hpg.
  - cbn [helperCalls]. apply search_traces_app; [exact Hpg |].
    apply search_traces_fired.
  - destruct (on_result _ _ _ results); [| exact Hpg].
    apply search_traces_commit, Hpg.
  - cbn [helperCalls].
    destruct (isIntersecting && (y <? prevY pg)); [| exact Hpg].
    apply search_traces_commit, Hpg.
Qed.

Lemma search_traces_run (evs : list PageEvent) (pg : Page) :
  search_traces currentLocale (helperCalls pg) ->
  search_traces currentLocale (helperCalls (run' pg evs)).
Proof.
  revert pg. induction evs as [| ev evs IH]; intros pg Hpg; [exact Hpg |].
  unfold run. cbn [foldl]. apply IH, search_traces_step, Hpg.
Qed.

(** X24. Whatever events occur after mounting, every call made on the
    helper belongs to a call of [makeSearch]: the log of helper calls is a
    concatenation of whole [makeSearch] traces. *)
Lemma search_traces_mounted (q : string) (sv : gmap string string)
    (evs : list PageEvent) :
  search_traces currentLocale
    (helperCalls (run' (mount currentLocale q sv) evs)).
Proof.
  apply search_traces_run. unfold mount.
  apply search_traces_queryEffect, search_traces_nil.
Qed.

(** The page only reaches states in which [totalPages] and [lastPage] are
    null together or numbers together. *)
Lemma reducer_coherent (q : string) (S : ResultDispatcherState)
    (data : ResultDispatcher) :
  paging_coherent S -> action_coherent data ->
  paging_coherent (reducer q S data).
Proof.
  intros HS Hdata. destruct data as [| | value |]; cbn [reducer].
  - left. split; reflexivity.
  - exact HS.
  - destruct (decide (Some q = query value)); [exact Hdata | exact HS].
  - destruct HS as [[Htp Hlp] | (tp & lp & Htp & Hlp)].
    + left. cbn [totalPages lastPage]. rewrite Htp, Hlp. split; reflexivity.
    + right. exists tp. cbn [totalPages lastPage]. rewrite Htp, Hlp.
      cbn [ToNumber]. destruct (lp + 1 <? tp); eauto.
Qed.

Lemma foldl_reducer_coherent (q : string) (actions : list ResultDispatcher) :
  Forall action_coherent actions ->
  forall S, paging_coherent S -> paging_coherent (foldl (reducer q) S actions).
Proof.
  induction 1 as [| a actions Ha _ IH]; intros S HS; [exact HS |].
  cbn [foldl]. apply IH, reducer_coherent; assumption.
Qed.

Lemma on_result_coherent (results : SearchResults)
    (actions : list ResultDispatcher) :
  on_result parseURL isRegexpStringMatch externalUrlRegex results = Normal actions ->
  Forall action_coherent actions.
Proof.
  unfold on_result.
  destruct (bool_decide (r_query results = "") || negb (isArray (r_hits results))).
  - intros [= <-]. repeat constructor.
  - destruct (r_hits results) as [hits |]; [| discriminate].
    destruct (mapC _ hits) as [its | e]; cbn [bindC]; [| discriminate].
    intros [= <-]. constructor; [| constructor].
    right. cbn [totalPages lastPage]. eauto.
Qed.

Lemma queryEffect_coherent (pg : Page) :
  paging_coherent (searchResultState (queryEffect currentLocale pg)).
Proof.
  unfold queryEffect. destruct (truthy_string (cur_searchQuery pg));
    left; split; reflexivity.
Qed.

Lemma step_coherent (pg : Page) (ev : PageEvent) :
  paging_coherent (searchResultState pg) ->
  paging_coherent (searchResultState (step' pg ev)).
Proof.
  intros Hpg. destruct ev as [q | pluginId v | ms | results | isIntersecting y];
    cbn [step].
  - destruct (decide (q = cur_searchQuery pg)); [exact Hpg |].
    apply queryEffect_coherent.
  - apply queryEffect_coherent.
  - exact Hpg.
  - destruct (on_result _ _ _ results) as [actions | e] eqn:Hres; [| exact Hpg].
    cbn [dispatchAll commit searchResultState].
    apply foldl_reducer_coherent; [| exact Hpg].
    apply (on_result_coherent results). exact Hres.
  - cbn [searchResultState].
    destruct (isIntersecting && (y <? prevY pg)); [| exact Hpg].
    cbn [dispatchAll commit searchResultState foldl].
    apply reducer_coherent; [exact Hpg | exact I].
Qed.

Lemma run_coherent (evs : list PageEvent) (pg : Page) :
  paging_coherent (searchResultState pg) ->
  paging_coherent (searchResultState (run' pg evs)).
Proof.
  revert pg. induction evs as [| ev evs IH]; intros pg Hpg; [exact Hpg |].
  unfold run. cbn [foldl]. apply IH, step_coherent, Hpg.
Qed.

(** X25. In every state the mounted page reaches, [totalPages] and
    [lastPage] are null together or numbers together; so whenever one of
    them is null, 'advance' answers [hasMore = false] with [lastPage]
    unchanged. *)
Lemma advance_null_reachable (q0 : string) (sv : gmap string string)
    (evs : list PageEvent) (q : string) :
  let S := searchResultState (run' (mount currentLocale q0 sv) evs) in
  ((totalPages S = None /\ lastPage S = None) \/
   (exists tp lp, totalPages S = Some tp /\ lastPage S = Some lp)) /\
  (totalPages S = None \/ lastPage S = None ->
   reducer q S type_advance = with_paging S (lastPage S) (Some false)).
Proof.
  intros S.
  assert (HS : paging_coherent S).
  { apply run_coherent. unfold mount. apply queryEffect_coherent. }
  split; [exact HS |].
  intros Hnull. rewrite reducer_advance.
  destruct HS as [[Htp Hlp] | (tp & lp & Htp & Hlp)].
  - rewrite Htp, Hlp. reflexivity.
  - rewrite Htp, Hlp in Hnull. destruct Hnull; discriminate.
Qed.

End Scheduling.



(* ===================================================================== *)
(** * Further properties: building the items *)
(* ===================================================================== *)

Lemma mapC_Forall2 {A B : Type} (f : A -> Completion B) (l : list A)
    (bs : list B) :
  mapC f l = Normal bs <-> Forall2 (fun a b => f a = Normal b) l bs.
Proof.
  revert bs. induction l as [| a l IH]; intros bs; cbn [mapC].
  - split.
    + intros [= <-]. constructor.
    + intros H. inversion H. reflexivity.
  - split.
    + destruct (f a) as [b | e] eqn:Hfa; cbn [bindC]; [| discriminate].
      destruct (mapC f l) as [bs' | e] eqn:Hl; cbn [bindC]; [| discriminate].
      intros [= <-]. constructor; [exact Hfa | apply IH; reflexivity].
    + intros H. inversion H as [| a' b l' bs' Hfa Hrest]; subst.
      rewrite Hfa. cbn [bindC]. apply IH in Hrest. rewrite Hrest. reflexivity.
Qed.

Lemma mapC_throws {A B : Type} (f : A -> Completion B) (l : list A) :
  Exists (fun a => exists e, f a = Throw e) l ->
  exists e, mapC f l = Throw e.
Proof.
  induction 1 as [a l [e He] | a l _ [e IH]]; cbn [mapC].
  - exists e. rewrite He. reflexivity.
  - destruct (f a) as [b | e']; cbn [bindC]; [| eauto].
    rewrite IH. cbn [bindC]. eauto.
Qed.

Lemma last_removelast {A : Type} (l : list A) (x : A) :
  last l = Some x -> l = (removelast l ++ [x])%list.
Proof.
  induction l as [| a l IH]; [discriminate |].
  destruct l as [| b l].
  - intros [= ->]. reflexivity.
  - intros Hlast. change (last (a :: b :: l)) with (last (b :: l)) in Hlast.
    change (removelast (a :: b :: l)) with (a :: removelast (b :: l)).
    cbn [app]. f_equal. apply IH. exact Hlast.
Qed.

Lemma hierarchyTitles_nonempty (h : Hit) :
  Forall (fun t => t <> "") (hierarchyTitles h).
Proof.
  unfold hierarchyTitles. apply Forall_forall. intros t Hin.
  apply list_elem_of_filter in Hin as [Ht _].
  destruct t; [contradiction | discriminate].
Qed.

Lemma hierarchyTitles_length (h : Hit) :
  (length (hierarchyTitles h) <= 7)%nat.
Proof.
  unfold hierarchyTitles.
  etransitivity; [apply length_filter |]. rewrite length_fmap. reflexivity.
Qed.

Section Items.

Variable parseURL : string -> Completion URL.
Variable isRegexpStringMatch : option string -> string -> bool.
Variable externalUrlRegex : option string.
Variable currentLocale : string.

Local Abbreviation toItem' := (toItem parseURL isRegexpStringMatch externalUrlRegex).
Local Abbreviation on_result' := (on_result parseURL isRegexpStringMatch externalUrlRegex).
Local Abbreviation pstep := (step parseURL isRegexpStringMatch externalUrlRegex currentLocale).

(** X1. For a non-empty query and an array of hits whose URLs all parse,
    the handler dispatches exactly one 'update'; its items are the hits
    converted one by one, in order (so there is one item per hit), and its
    paging fields are those of the result, with [loading = false]. *)
Theorem on_result_update (results : SearchResults) (hits : list Hit) :
  r_query results <> "" ->
  r_hits results = HitsArray hits ->
  Forall (fun h => exists u, parseURL (hit_url h) = Normal u) hits ->
  exists items' : list Item,
    on_result' results =
    Normal [type_update
              {| items := items';
                 query := Some (r_query results);
                 totalResults := Some (r_nbHits results);
                 totalPages := Some (r_nbPages results);
                 lastPage := Some (r_page results);
                 hasMore := Some (bool_decide (r_nbPages results > r_page results + 1));
                 loading := Some false |}] /\
    Forall2 (fun h it => toItem' h = Normal it) hits items' /\
    length items' = length hits.
Proof.
  intros Hq Hhits Hall.
  assert (Hmap : exists its, mapC toItem' hits = Normal its).
  { clear Hhits. induction Hall as [| h hs [u Hu] _ [its IH]].
    - exists []. reflexivity.
    - cbn [mapC]. unfold toItem at 1. rewrite Hu. cbn [bindC].
      rewrite IH. cbn [bindC]. eauto. }
  destruct Hmap as [its Hits]. exists its.
  pose proof (proj1 (mapC_Forall2 _ _ _) Hits) as HF.
  split; [| split; [exact HF | symmetry; eapply Forall2_length; exact HF]].
  unfold on_result. rewrite Hhits. cbn [isArray negb].
  rewrite bool_decide_eq_false_2 by exact Hq. cbn [orb].
  rewrite Hits. cbn [bindC]. do 3 f_equal.
  destruct (Z.ltb_spec (r_page results + 1) (r_nbPages results)).
  - rewrite bool_decide_eq_true_2 by lia. reflexivity.
  - rewrite bool_decide_eq_false_2 by lia. reflexivity.
Qed.

(** X2. For a result with a non-empty query whose hits are an array, one
    hit whose [url] makes [new URL] throw makes the whole handler throw:
    nothing is dispatched, and the page is left exactly as it was, whatever
    the other hits are. *)
Theorem on_result_bad_url (results : SearchResults) (hits : list Hit)
    (h : Hit) (e : JsError) (pg : Page) :
  r_query results <> "" ->
  r_hits results = HitsArray hits ->
  In h hits ->
  parseURL (hit_url h) = Throw e ->
  (exists e', on_result' results = Throw e') /\
  pstep pg (helperResult results) = pg.
Proof.
  intros Hq Hhits Hin Hbad.
  assert (Hthrow : exists e', on_result' results = Throw e').
  { unfold on_result. rewrite Hhits. cbn [isArray negb].
    rewrite bool_decide_eq_false_2 by exact Hq. cbn [orb].
    destruct (mapC_throws toItem' hits) as [e' He'].
    - apply Exists_exists. exists h. split; [apply list_elem_of_In; exact Hin |].
      exists e. unfold toItem. rewrite Hbad. reflexivity.
    - exists e'. rewrite He'. reflexivity. }
  split; [exact Hthrow |].
  destruct Hthrow as [e' He']. cbn [step]. rewrite He'. reflexivity.
Qed.

(** X3. In an item, the title is the last non-empty highlighted hierarchy
    level and the breadcrumbs are the levels before it: breadcrumbs followed
    by the title are the hit's titles. No breadcrumb and no title is the
    empty string, there are at most 6 breadcrumbs, and the title is
    undefined exactly when the hit highlights no level (the breadcrumbs are
    empty then). *)
Theorem toItem_titles (h : Hit) (it : Item) :
  toItem' h = Normal it ->
  (forall t, title it = Some t ->
     hierarchyTitles h = (breadcrumbs it ++ [t])%list /\ t <> "") /\
  (title it = None <-> hierarchyTitles h = []) /\
  (title it = None -> breadcrumbs it = []) /\
  Forall (fun b => b <> "") (breadcrumbs it) /\
  (length (breadcrumbs it) <= 6)%nat.
Proof.
  unfold toItem. destruct (parseURL (hit_url h)) as [u | e]; cbn [bindC];
    [| discriminate].
  intros [= <-]. cbn [title breadcrumbs].
  pose proof (hierarchyTitles_nonempty h) as Hne.
  pose proof (hierarchyTitles_length h) as Hlen.
  assert (Hsplit : forall t, last (hierarchyTitles h) = Some t ->
            hierarchyTitles h = (removelast (hierarchyTitles h) ++ [t])%list).
  { intros t. apply last_removelast. }
  split; [| split; [| split; [| split]]].
  - intros t Ht. split; [apply Hsplit, Ht |].
    rewrite (Hsplit t Ht) in Hne. apply Forall_app in Hne as [_ Hne].
    inversion Hne; assumption.
  - apply last_None.
  - intros Hnone. apply last_None in Hnone. rewrite Hnone. reflexivity.
  - destruct (last (hierarchyTitles h)) as [t |] eqn:Hlast.
    + rewrite (Hsplit t eq_refl) in Hne. apply Forall_app in Hne as [Hne _].
      exact Hne.
    + apply last_None in Hlast. rewrite Hlast. constructor.
  - destruct (last (hierarchyTitles h)) as [t |] eqn:Hlast.
    + rewrite (Hsplit t eq_refl), length_app in Hlen. cbn [length] in Hlen. lia.
    + apply last_None in Hlast. rewrite Hlast. cbn. lia.
Qed.

End Items.

Lemma on_result_update_witness :
  r_query (sample_results "install" 0) <> "" /\
  r_hits (sample_results "install" 0)
  = HitsArray [sample_hit "/docs/a"; sample_hit "/docs/b"] /\
  Forall (fun h => exists u, sample_parseURL (hit_url h) = Normal u)
         [sample_hit "/docs/a"; sample_hit "/docs/b"] /\
  exists items' : list Item,
    on_result sample_parseURL sample_isRegexpStringMatch None
              (sample_results "install" 0) =
    Normal [type_update
              {| items := items';
                 query := Some "install";
                 totalResults := Some 6;
                 totalPages := Some 3;
                 lastPage := Some 0;
                 hasMore := Some (bool_decide (3 > 0 + 1));
                 loading := Some false |}] /\
    Forall2 (fun h it => toItem sample_parseURL sample_isRegexpStringMatch None h
                         = Normal it)
            [sample_hit "/docs/a"; sample_hit "/docs/b"] items' /\
    length items' = 2%nat.
Proof.
  assert (H1 : r_query (sample_results "install" 0) <> "") by discriminate.
  assert (H3 : Forall (fun h => exists u, sample_parseURL (hit_url h) = Normal u)
                      [sample_hit "/docs/a"; sample_hit "/docs/b"]).
  { repeat constructor; eexists; vm_compute; reflexivity. }
  split; [exact H1 | split; [reflexivity | split; [exact H3 |]]].
  exact (on_result_update sample_parseURL sample_isRegexpStringMatch None
           (sample_results "install" 0) _ H1 eq_refl H3).
Defined.

Lemma on_result_bad_url_witness :
  "install" <> "" /\
  In relative_hit [sample_hit "/docs/a"; relative_hit] /\
  sample_parseURL (hit_url relative_hit) = Throw TypeError /\
  step sample_parseURL sample_isRegexpStringMatch None "en" sample_page
    (helperResult
       {| r_query := "install";
          r_hits := HitsArray [sample_hit "/docs/a"; relative_hit];
          r_page := 1; r_nbHits := 6; r_nbPages := 3 |})
  = sample_page.
Proof.
  assert (H1 : "install" <> "") by discriminate.
  assert (H2 : In relative_hit [sample_hit "/docs/a"; relative_hit])
    by (right; left; reflexivity).
  split; [exact H1 | split; [exact H2 | split; [reflexivity |]]].
  exact (proj2 (on_result_bad_url sample_parseURL sample_isRegexpStringMatch
                  None "en"
                  {| r_query := "install";
                     r_hits := HitsArray [sample_hit "/docs/a"; relative_hit];
                     r_page := 1; r_nbHits := 6; r_nbPages := 3 |}
                  _ relative_hit TypeError sample_page H1 eq_refl H2 eq_refl)).
Defined.

Lemma toItem_titles_witness :
  toItem sample_parseURL sample_isRegexpStringMatch None (sample_hit "/docs/a")
  = Normal {| title := Some "<span class='search-result-match'>Install</span>";
              url := "/docs/a";
              summary := "how to install...";
              breadcrumbs := ["Docs"] |} /\
  hierarchyTitles (sample_hit "/docs/a")
  = ["Docs"; "<span class='search-result-match'>Install</span>"].
Proof.
  assert (H1 : toItem sample_parseURL sample_isRegexpStringMatch None
                 (sample_hit "/docs/a")
               = Normal {| title := Some "<span class='search-result-match'>Install</span>";
                           url := "/docs/a";
                           summary := "how to install...";
                           breadcrumbs := ["Docs"] |})
    by (vm_compute; reflexivity).
  split; [exact H1 |].
  exact (proj1 (proj1 (toItem_titles sample_parseURL sample_isRegexpStringMatch
                         None _ _ H1) _ eq_refl)).
Defined.

(* ===================================================================== *)
(** * Further properties: sanitizeValue *)
(* ===================================================================== *)



Lemma replace_from_absent (pat rep s : string) :
  has_substring pat s = false -> replace_from pat rep O s = s.
Proof.
  induction s as [| c s IH]; [reflexivity |].
  intros Habs. cbn [has_substring] in Habs.
  apply orb_false_iff in Habs as [Hpre Hrest].
  cbn [replace_from]. rewrite Hpre. f_equal. apply IH, Hrest.
Qed.


(** X4. A value in which the Algolia highlight class does not occur is
    returned unchanged. *)
Theorem sanitizeValue_without_marker (value : string) :
  has_substring "algolia-docsearch-suggestion--highlight" value = false ->
  sanitizeValue value = value.
Proof. intros Habs. apply replace_from_absent, Habs. Qed.

Lemma sanitizeValue_without_marker_witness :
  has_substring "algolia-docsearch-suggestion--highlight" "Getting <b>started</b>"
  = false /\
  sanitizeValue "Getting <b>started</b>" = "Getting <b>started</b>".
Proof.
  split; [vm_compute; reflexivity |].
  apply sanitizeValue_without_marker. vm_compute. reflexivity.
Defined.


Lemma sanitizeValue_marker_twice_example :
  sanitizeValue
    ("algolia-docsearch-suggestion--highlight"
       +:+ "algolia-docsearch-suggestion--highlight")
  = "search-result-matchsearch-result-match".
Proof. vm_compute. reflexivity. Qed.

(* ===================================================================== *)
(** * Further properties: paging *)
(* ===================================================================== *)

Lemma advance_n_succ (q : string) (n : nat) (S : ResultDispatcherState) :
  advance_n q (Datatypes.S n) S = reducer q (advance_n q n S) type_advance.
Proof. reflexivity. Qed.

(** X6. Repeated 'advance' walks through the pages and stops at the last
    one: from page [lp] of [tp] pages, [n] advances lead to page
    [min (lp + n) (tp - 1)], or stay at [lp] when [lp] is already the last
    page or beyond. [hasMore] after the [n]-th advance tells whether page
    [lp + n] exists, and no other field changes. *)
Theorem advance_n_pages (q : string) (n : nat) (S : ResultDispatcherState)
    (tp lp : Z) :
  totalPages S = Some tp ->
  lastPage S = Some lp ->
  let S' := advance_n q n S in
  lastPage S' = Some (Z.max lp (Z.min (lp + Z.of_nat n) (tp - 1))) /\
  ((0 < n)%nat -> hasMore S' = Some (bool_decide (lp + Z.of_nat n < tp))) /\
  items S' = items S /\ query S' = query S /\
  totalResults S' = totalResults S /\ totalPages S' = Some tp /\
  loading S' = loading S.
Proof.
  intros Htp Hlp. induction n as [| n IH].
  - cbn. rewrite Hlp, Htp. repeat split; try lia. f_equal. lia.
  - cbn zeta in *. rewrite advance_n_succ, reducer_advance.
    destruct IH as (Hl & Hm & Hi & Hq & Hr & Ht & Hload).
    cbn [with_paging lastPage hasMore items query totalResults totalPages loading].
    rewrite Hl, Ht. cbn [ToNumber].
    set (m := Z.max lp (Z.min (lp + Z.of_nat n) (tp - 1))).
    repeat split; try assumption.
    + destruct (Z.ltb_spec (m + 1) tp); f_equal; subst m; lia.
    + intros _. f_equal.
      destruct (Z.ltb_spec (m + 1) tp); subst m.
      * rewrite bool_decide_eq_true_2 by lia. reflexivity.
      * rewrite bool_decide_eq_false_2 by lia. reflexivity.
Qed.

Lemma advance_n_pages_witness :
  totalPages sample_state = Some 3 /\ lastPage sample_state = Some 0 /\
  lastPage (advance_n "install" 5 sample_state) = Some 2.
Proof.
  split; [reflexivity | split; [reflexivity |]].
  exact (proj1 (advance_n_pages "install" 5 sample_state 3 0 eq_refl eq_refl)).
Defined.

Lemma requests_from_app_makeSearch (q0 : string) (p0 : Z)
    (calls : list HelperCall)
    (currentLocale q : string) (sv : gmap string string) (page : option Z) :
  requests_from q0 p0 (calls ++ makeSearch currentLocale q sv page)
  = (requests_from q0 p0 calls ++ [(q, default 0 page)])%list.
Proof.
  revert q0 p0. induction calls as [| c calls IH]; intros q0 p0.
  - cbn [app]. rewrite <- (app_nil_r (makeSearch _ _ _ _)).
    rewrite requests_from_makeSearch. reflexivity.
  - destruct c; cbn [app requests_from]; rewrite ?IH; reflexivity.
Qed.

(** The searches of a log followed by one [makeSearch] trace. *)
Lemma requests_app_makeSearch (calls : list HelperCall)
    (currentLocale q : string) (sv : gmap string string) (page : option Z) :
  requests (calls ++ makeSearch currentLocale q sv page)
  = (requests calls ++ [(q, default 0 page)])%list.
Proof. apply requests_from_app_makeSearch. Qed.

Section Paging.

Variable parseURL : string -> Completion URL.
Variable isRegexpStringMatch : option string -> string -> bool.
Variable externalUrlRegex : option string.
Variable currentLocale : string.

Local Abbreviation toItem' := (toItem parseURL isRegexpStringMatch externalUrlRegex).
Local Abbreviation on_result' := (on_result parseURL isRegexpStringMatch externalUrlRegex).
Local Abbreviation pstep := (step parseURL isRegexpStringMatch externalUrlRegex currentLocale).
Local Abbreviation prun := (run parseURL isRegexpStringMatch externalUrlRegex currentLocale).

(** The 'update' the handler dispatches for a well-formed result. *)
Lemma on_result_array (results : SearchResults) (hits : list Hit)
    (its : list Item) :
  r_query results <> "" ->
  r_hits results = HitsArray hits ->
  mapC toItem' hits = Normal its ->
  on_result' results =
  Normal [type_update
            {| items := its;
               query := Some (r_query results);
               totalResults := Some (r_nbHits results);
               totalPages := Some (r_nbPages results);
               lastPage := Some (r_page results);
               hasMore := Some (r_page results + 1 <? r_nbPages results);
               loading := Some false |}].
Proof.
  intros Hq Hhits Hits. unfold on_result. rewrite Hhits. cbn [isArray negb].
  rewrite bool_decide_eq_false_2 by exact Hq. cbn [orb].
  rewrite Hits. reflexivity.
Qed.

Lemma commit_same_page (pg : Page) (st : ResultDispatcherState) :
  lastPage st = lastPage (searchResultState pg) ->
  commit currentLocale pg st =
  {| clock := clock pg;
     cur_searchQuery := cur_searchQuery pg;
     cur_searchVersions := cur_searchVersions pg;
     searchResultState := st;
     prevY := prevY pg;
     timeouts := timeouts pg;
     helperCalls := helperCalls pg |}.
Proof.
  intros Hsame. unfold commit.
  destruct (decide (lastPage st = lastPage (searchResultState pg)));
    [| contradiction].
  rewrite app_nil_r. reflexivity.
Qed.

Lemma commit_unchanged (pg : Page) :
  commit currentLocale pg (searchResultState pg) = pg.
Proof. rewrite commit_same_page by reflexivity. destruct pg; reflexivity. Qed.

(** X7. The [hasMore] the handler stores and the one 'advance' recomputes
    agree: on the state produced by an accepted result, 'advance' leaves
    [hasMore] as it is, moves to the next page exactly when [hasMore] is
    true, and keeps the items. *)
Theorem advance_after_result (results : SearchResults)
    (S value : ResultDispatcherState) :
  on_result' results = Normal [type_update value] ->
  let S1 := reducer (r_query results) S (type_update value) in
  let S2 := reducer (r_query results) S1 type_advance in
  hasMore S2 = hasMore S1 /\
  (hasMore S1 = Some true -> lastPage S2 = Some (r_page results + 1)) /\
  (hasMore S1 = Some false -> lastPage S2 = Some (r_page results)) /\
  (hasMore S1 = Some true \/ hasMore S1 = Some false) /\
  items S2 = items S1.
Proof.
  intros Hres S1 S2. unfold on_result in Hres.
  destruct (bool_decide (r_query results = "") || negb (isArray (r_hits results)));
    [discriminate |].
  destruct (r_hits results) as [hits |]; [| discriminate].
  destruct (mapC toItem' hits) as [its | e]; cbn [bindC] in Hres;
    [| discriminate].
  injection Hres as <-. subst S2. rewrite reducer_advance.
  subst S1. cbn [reducer query].
  destruct (decide (Some (r_query results) = Some (r_query results)));
    [| contradiction].
  cbn [with_paging hasMore lastPage totalPages items ToNumber].
  destruct (r_page results + 1 <? r_nbPages results).
  - split; [reflexivity | split; [reflexivity | split; [discriminate |]]].
    split; [left; reflexivity | reflexivity].
  - split; [reflexivity | split; [discriminate | split; [reflexivity |]]].
    split; [right; reflexivity | reflexivity].
Qed.

(** X8. A well-formed result for another query than the current one leaves
    the page exactly as it was: reducer state, timers and helper calls. *)
Theorem stale_result_ignored (pg : Page) (results : SearchResults) :
  isArray (r_hits results) = true ->
  r_query results <> "" ->
  r_query results <> cur_searchQuery pg ->
  pstep pg (helperResult results) = pg.
Proof.
  intros Harr Hq Hstale. cbn [step].
  destruct (on_result' results) as [actions | e] eqn:Hres; [| reflexivity].
  unfold on_result in Hres. rewrite Harr in Hres. cbn [negb] in Hres.
  rewrite bool_decide_eq_false_2 in Hres by exact Hq. cbn [orb] in Hres.
  destruct (r_hits results) as [hits |]; [| discriminate].
  destruct (mapC toItem' hits) as [its | e]; cbn [bindC] in Hres;
    [| discriminate].
  injection Hres as <-. unfold dispatchAll. cbn [foldl reducer query].
  destruct (decide (Some (cur_searchQuery pg) = Some (r_query results)))
    as [Heq | _].
  - injection Heq as Heq. symmetry in Heq. contradiction.
  - apply commit_unchanged.
Qed.

Lemma step_result_current (pg : Page) (results : SearchResults)
    (hits : list Hit) (its : list Item) :
  r_query results = cur_searchQuery pg ->
  cur_searchQuery pg <> "" ->
  r_hits results = HitsArray hits ->
  mapC toItem' hits = Normal its ->
  r_page results = 0 \/ lastPage (searchResultState pg) = Some (r_page results) ->
  let pg' := pstep pg (helperResult results) in
  items (searchResultState pg')
  = (if decide (r_page results = 0) then its
     else items (searchResultState pg) ++ its)%list /\
  length its = length hits /\
  lastPage (searchResultState pg') = Some (r_page results) /\
  totalPages (searchResultState pg') = Some (r_nbPages results) /\
  totalResults (searchResultState pg') = Some (r_nbHits results) /\
  loading (searchResultState pg') = Some false /\
  helperCalls pg' = helperCalls pg /\
  timeouts pg' = timeouts pg.
Proof.
  intros Hcur Hq Hhits Hits Hpage pg'. subst pg'. cbn [step].
  rewrite (on_result_array results hits its) by (rewrite ?Hcur; assumption).
  unfold dispatchAll. cbn [foldl reducer query]. rewrite Hcur.
  destruct (decide (Some (cur_searchQuery pg) = Some (cur_searchQuery pg)));
    [| contradiction].
  cbn [lastPage items].
  assert (Hlen : length its = length hits).
  { symmetry. eapply Forall2_length. apply mapC_Forall2. exact Hits. }
  assert (Hitems :
    (if decide (Some (r_page results) = Some 0) then its
     else items (searchResultState pg) ++ its)%list
    = (if decide (r_page results = 0) then its
       else items (searchResultState pg) ++ its)%list).
  { destruct (decide (r_page results = 0)) as [H0 | Hn];
      destruct (decide (Some (r_page results) = Some 0)) as [H0' | Hn'];
      try reflexivity.
    - exfalso. apply Hn'. f_equal. exact H0.
    - exfalso. apply Hn. injection H0' as H0'. exact H0'. }
  unfold commit. cbn [searchResultState helperCalls timeouts lastPage items
                      totalPages totalResults loading].
  repeat split; try assumption.
  destruct (decide (Some (r_page results) = lastPage (searchResultState pg)))
    as [_ | Hne]; [apply app_nil_r |].
  destruct Hpage as [H0 | Hsame]; [| symmetry in Hsame; contradiction].
  rewrite H0. cbn. apply app_nil_r.
Qed.

(** X9. A result for the current query, when that query is not empty and
    the hits are an array of hits whose URLs all parse, is taken over if
    its page is 0 or the page the state is at: page 0 replaces the items,
    the page the state is at appends to them, one item per hit. The state
    then carries the result's paging data with [loading = false], and
    taking it over neither calls the helper nor touches a timer. *)
Theorem result_accepted (pg : Page) (results : SearchResults)
    (hits : list Hit) (its : list Item) :
  r_query results = cur_searchQuery pg ->
  cur_searchQuery pg <> "" ->
  r_hits results = HitsArray hits ->
  mapC toItem' hits = Normal its ->
  r_page results = 0 \/ lastPage (searchResultState pg) = Some (r_page results) ->
  let pg' := pstep pg (helperResult results) in
  items (searchResultState pg')
  = (if decide (r_page results = 0) then its
     else items (searchResultState pg) ++ its)%list /\
  length its = length hits /\
  lastPage (searchResultState pg') = Some (r_page results) /\
  totalPages (searchResultState pg') = Some (r_nbPages results) /\
  totalResults (searchResultState pg') = Some (r_nbHits results) /\
  loading (searchResultState pg') = Some false /\
  helperCalls pg' = helperCalls pg /\
  timeouts pg' = timeouts pg.
Proof. exact (step_result_current pg results hits its). Qed.

(** X10. The stale-response guard compares queries only: when the version
    selection changes, the state is reset and a new request waits for its
    timer, but a result that carries the unchanged query and arrives in the
    meantime is taken over, and ends the loading state. *)
Theorem result_accepted_after_version_change (pg : Page)
    (pluginId searchVersion : string) (results : SearchResults)
    (hits : list Hit) (its : list Item) :
  cur_searchQuery pg <> "" ->
  r_query results = cur_searchQuery pg ->
  r_hits results = HitsArray hits ->
  mapC toItem' hits = Normal its ->
  r_page results = 0 ->
  let pg' := prun pg [selectVersion pluginId searchVersion; helperResult results] in
  cur_searchVersions pg' = <[pluginId := searchVersion]> (cur_searchVersions pg) /\
  items (searchResultState pg') = its /\
  loading (searchResultState pg') = Some false /\
  timeouts pg' = (timeouts pg ++ [(clock pg + 300)%nat])%list /\
  helperCalls pg' = helperCalls pg.
Proof.
  intros Hq Hcur Hhits Hits H0 pg'. subst pg'. unfold run. cbn [foldl].
  set (pg1 := pstep pg (selectVersion pluginId searchVersion)).
  assert (Hpg1 : pg1 =
    {| clock := clock pg;
       cur_searchQuery := cur_searchQuery pg;
       cur_searchVersions := <[pluginId := searchVersion]> (cur_searchVersions pg);
       searchResultState := with_loading initialSearchResultState (Some true);
       prevY := prevY pg;
       timeouts := timeouts pg ++ [(clock pg + 300)%nat];
       helperCalls := helperCalls pg |}).
  { subst pg1. cbn [step]. rewrite queryEffect_nonempty by exact Hq.
    reflexivity. }
  assert (Hq1 : cur_searchQuery pg1 = cur_searchQuery pg)
    by (rewrite Hpg1; reflexivity).
  destruct (step_result_current pg1 results hits its)
    as (Hi & _ & _ & _ & _ & Hl & Hc & Ht);
    [congruence | congruence | assumption | assumption | left; exact H0 |].
  cbn zeta in Hi. rewrite Hi, Hl, Hc, Ht.
  destruct (decide (r_page results = 0)); [| contradiction].
  assert (Hsv : cur_searchVersions (pstep pg1 (helperResult results))
                = cur_searchVersions pg1).
  { cbn [step]. rewrite (on_result_array results hits its)
      by (rewrite ?Hcur; assumption). reflexivity. }
  rewrite Hsv, Hpg1. repeat split.
Qed.

Lemma paginationEffect_page (q : string) (sv : gmap string string) (p : Z) :
  p <> 0 ->
  paginationEffect currentLocale q sv (Some p)
  = makeSearch currentLocale q sv (Some p).
Proof.
  intros Hp. unfold paginationEffect. cbn [truthy_number].
  destruct (Z.eqb_spec p 0) as [? | _]; [contradiction |].
  cbn [negb orb]. rewrite bool_decide_eq_false_2; [reflexivity |].
  intros [= Heq]. contradiction.
Qed.

Lemma requests_makeSearch (q : string) (sv : gmap string string)
    (page : option Z) :
  requests (makeSearch currentLocale q sv page) = [(q, default 0 page)].
Proof.
  unfold requests. rewrite <- (app_nil_r (makeSearch _ _ _ _)).
  rewrite requests_from_makeSearch. reflexivity.
Qed.

(** X11. When the sentinel scrolls into view from below (it intersects and
    its [y] is smaller than at the previous observation) and a further page
    exists, the page moves to the next page and submits exactly one search,
    for the current query at that page; the items stay until the result
    arrives. *)
Theorem scroll_requests_next_page (pg : Page) (y tp lp : Z) :
  totalPages (searchResultState pg) = Some tp ->
  lastPage (searchResultState pg) = Some lp ->
  0 <= lp -> lp + 1 < tp ->
  y < prevY pg ->
  let pg' := pstep pg (intersection true y) in
  let submitted :=
    makeSearch currentLocale (cur_searchQuery pg) (cur_searchVersions pg)
               (Some (lp + 1)) in
  searchResultState pg'
  = with_paging (searchResultState pg) (Some (lp + 1)) (Some true) /\
  helperCalls pg' = (helperCalls pg ++ submitted)%list /\
  requests submitted = [(cur_searchQuery pg, lp + 1)] /\
  timeouts pg' = timeouts pg /\
  prevY pg' = y.
Proof.
  intros Htp Hlp Hnn Hmore Hy pg' submitted. subst pg' submitted. cbn [step].
  destruct (Z.ltb_spec y (prevY pg)); [| lia]. cbn [andb].
  unfold dispatchAll. cbn [foldl]. rewrite reducer_advance, Htp, Hlp.
  cbn [ToNumber]. destruct (Z.ltb_spec (lp + 1) tp); [| lia].
  unfold commit.
  cbn [searchResultState helperCalls timeouts prevY with_paging lastPage].
  rewrite Hlp.
  destruct (decide (Some (lp + 1) = Some lp)) as [Heq | _];
    [injection Heq as Heq; lia |].
  rewrite paginationEffect_page by lia.
  repeat split. apply requests_makeSearch.
Qed.

(** X12. An observation that does not intersect, or whose [y] is not
    smaller than the previous one, changes nothing but the remembered [y];
    so the same observation delivered twice advances at most once. *)
Theorem scroll_guard (pg : Page) (isIntersecting : bool) (y : Z) :
  isIntersecting = false \/ prevY pg <= y ->
  pstep pg (intersection isIntersecting y) = with_prevY pg y /\
  pstep (pstep pg (intersection isIntersecting y)) (intersection isIntersecting y)
  = with_prevY pg y.
Proof.
  intros Hguard.
  assert (Hcond : forall p, isIntersecting = false \/ p <= y ->
            isIntersecting && (y <? p) = false).
  { intros p [-> | Hle]; [reflexivity |].
    destruct (Z.ltb_spec y p); [lia | apply andb_false_r]. }
  assert (Hone : pstep pg (intersection isIntersecting y) = with_prevY pg y).
  { cbn [step]. rewrite (Hcond _ Hguard). reflexivity. }
  split; [exact Hone |].
  rewrite Hone. cbn [step]. rewrite (Hcond (prevY (with_prevY pg y))).
  - reflexivity.
  - right. cbn. lia.
Qed.

(** X13. On the last page, scrolling the sentinel into view only records
    that there is nothing more: [hasMore] becomes false, so the loader is
    no longer rendered, and no search is submitted. *)
Theorem scroll_at_last_page (pg : Page) (y tp lp : Z) :
  totalPages (searchResultState pg) = Some tp ->
  lastPage (searchResultState pg) = Some lp ->
  tp <= lp + 1 ->
  y < prevY pg ->
  let pg' := pstep pg (intersection true y) in
  searchResultState pg'
  = with_paging (searchResultState pg) (Some lp) (Some false) /\
  v_loader (render (cur_searchQuery pg') (searchResultState pg')) = false /\
  helperCalls pg' = helperCalls pg /\
  timeouts pg' = timeouts pg.
Proof.
  intros Htp Hlp Hlast Hy pg'. subst pg'. cbn [step].
  destruct (Z.ltb_spec y (prevY pg)); [| lia]. cbn [andb].
  unfold dispatchAll. cbn [foldl]. rewrite reducer_advance, Htp, Hlp.
  cbn [ToNumber]. destruct (Z.ltb_spec (lp + 1) tp); [lia |].
  rewrite commit_same_page by (cbn; rewrite Hlp; reflexivity).
  repeat split.
Qed.

Lemma queryEffect_empty (pg : Page) :
  cur_searchQuery pg = "" ->
  queryEffect currentLocale pg =
  {| clock := clock pg;
     cur_searchQuery := "";
     cur_searchVersions := cur_searchVersions pg;
     searchResultState := initialSearchResultState;
     prevY := prevY pg;
     timeouts := timeouts pg;
     helperCalls := helperCalls pg |}.
Proof.
  intros Hq. unfold queryEffect. rewrite Hq. cbn [truthy_string].
  unfold dispatchAll, commit. cbn [foldl reducer lastPage initialSearchResultState].
  rewrite Hq.
  destruct (decide (None = lastPage (searchResultState pg)));
    rewrite ?paginationEffect_null, app_nil_r; reflexivity.
Qed.

(** X14. Clearing the query resets the result state and schedules nothing;
    the page then shows no result, no "No results" text, no spinner, no
    loader and no count. A timer that was already pending is not cancelled:
    when the query was typed less than 300 ms before, a search for the
    empty query is still submitted. *)
Theorem clear_query (pg : Page) (q : string) (d : nat) :
  timeouts pg = [] ->
  q <> cur_searchQuery pg -> q <> "" ->
  (d < 300)%nat ->
  let typed := prun pg [setSearchQuery q; elapse d] in
  let cleared := pstep typed (setSearchQuery "") in
  searchResultState cleared = initialSearchResultState /\
  render "" (searchResultState cleared)
  = {| v_documentsFound := None; v_results := []; v_noResults := false;
       v_spinner := false; v_loader := false |} /\
  timeouts cleared = timeouts typed /\
  helperCalls cleared = helperCalls pg /\
  requests (helperCalls (pstep cleared (elapse 300)))
  = (requests (helperCalls pg) ++ [("", 0)])%list.
Proof.
  intros Hidle Hq Hne Hd typed cleared.
  assert (Htyped : typed =
    {| clock := (clock pg + d)%nat;
       cur_searchQuery := q;
       cur_searchVersions := cur_searchVersions pg;
       searchResultState := with_loading initialSearchResultState (Some true);
       prevY := prevY pg;
       timeouts := [(clock pg + 300)%nat];
       helperCalls := helperCalls pg |}).
  { subst typed. unfold run. cbn [foldl].
    rewrite (step_setSearchQuery_nonempty _ _ _ _ pg q Hq Hne), Hidle.
    cbn [step clock cur_searchQuery cur_searchVersions searchResultState
         prevY timeouts helperCalls app filter list_filter].
    rewrite (decide_True (P := (clock pg + d < clock pg + 300)%nat)) by lia.
    rewrite (decide_False (P := (clock pg + 300 <= clock pg + d)%nat)) by lia.
    cbn [fmap list_fmap concat]. rewrite app_nil_r. reflexivity. }
  assert (Hcleared : cleared =
    {| clock := (clock pg + d)%nat;
       cur_searchQuery := "";
       cur_searchVersions := cur_searchVersions pg;
       searchResultState := initialSearchResultState;
       prevY := prevY pg;
       timeouts := [(clock pg + 300)%nat];
       helperCalls := helperCalls pg |}).
  { subst cleared. rewrite Htyped. cbn [step cur_searchQuery].
    destruct (decide ("" = q)) as [Heq | _]; [symmetry in Heq; contradiction |].
    rewrite queryEffect_empty by reflexivity. reflexivity. }
  rewrite Hcleared. rewrite Htyped at 1.
  cbn [searchResultState timeouts helperCalls].
  split; [reflexivity | split; [reflexivity | split; [reflexivity |]]].
  split; [reflexivity |].
  cbn [step clock cur_searchQuery cur_searchVersions searchResultState
       prevY timeouts helperCalls filter list_filter].
  rewrite (decide_True (P := (clock pg + 300 <= clock pg + d + 300)%nat)) by lia.
  cbn [fmap list_fmap concat]. unfold fireTimeout.
  cbn [cur_searchQuery cur_searchVersions]. rewrite app_nil_r.
  apply requests_app_makeSearch.
Qed.

(** Every pending timer is due at most 300 ms from now. *)
Lemma queryEffect_timers (pg : Page) :
  timers_bounded pg -> timers_bounded (queryEffect currentLocale pg).
Proof.
  unfold timers_bounded, queryEffect, setTimeout, dispatchAll, commit.
  intros Hpg. destruct (truthy_string (cur_searchQuery pg));
    cbn [clock timeouts]; [| exact Hpg].
  apply Forall_app. split; [exact Hpg |]. constructor; [lia | constructor].
Qed.

Lemma step_timers (pg : Page) (ev : PageEvent) :
  timers_bounded pg -> timers_bounded (pstep pg ev).
Proof.
  intros Hpg. destruct ev as [q | pluginId v | ms | results | b y]; cbn [step].
  - destruct (decide (q = cur_searchQuery pg)); [exact Hpg |].
    apply queryEffect_timers, Hpg.
  - apply queryEffect_timers, Hpg.
  - unfold timers_bounded in *. cbn [clock timeouts].
    apply Forall_forall. intros due Hin.
    apply list_elem_of_filter in Hin as [_ Hin].
    rewrite Forall_forall in Hpg. specialize (Hpg due Hin). lia.
  - destruct (on_result' results); exact Hpg.
  - unfold timers_bounded in *. cbn [clock timeouts].
    destruct (b && (y <? prevY pg)); exact Hpg.
Qed.

Lemma run_timers (evs : list PageEvent) (pg : Page) :
  timers_bounded pg -> timers_bounded (prun pg evs).
Proof.
  revert pg. induction evs as [| ev evs IH]; intros pg Hpg; [exact Hpg |].
  unfold run. cbn [foldl]. apply IH, step_timers, Hpg.
Qed.

Lemma mount_timers (q : string) (sv : gmap string string) :
  timers_bounded (mount currentLocale q sv).
Proof. apply queryEffect_timers. constructor. Qed.

Lemma requests_fired (pg : Page) (due : list nat) (calls : list HelperCall) :
  requests (calls ++ concat ((fun _ => fireTimeout currentLocale pg) <$> due))
  = (requests calls ++ replicate (length due) (cur_searchQuery pg, 0))%list.
Proof.
  revert calls. induction due as [| t due IH]; intros calls.
  - cbn. rewrite !app_nil_r. reflexivity.
  - cbn [fmap list_fmap concat length replicate].
    rewrite app_assoc, IH. unfold fireTimeout.
    rewrite requests_app_makeSearch, <- app_assoc. reflexivity.
Qed.

(** X15. No timer outlives its delay. On a page reached from mounting by
    any events, once 300 ms or more pass without another event no timer is
    left pending, and every timer that was pending has submitted exactly one
    search, for the query current at that time, at page 0. *)
Theorem timers_fire_within_delay (q0 : string) (sv0 : gmap string string)
    (evs : list PageEvent) (ms : nat) :
  (300 <= ms)%nat ->
  let pg := prun (mount currentLocale q0 sv0) evs in
  let pg' := pstep pg (elapse ms) in
  timeouts pg' = [] /\
  requests (helperCalls pg')
  = (requests (helperCalls pg)
       ++ replicate (length (timeouts pg)) (cur_searchQuery pg, 0))%list.
Proof.
  intros Hms pg pg'.
  assert (Hb : timers_bounded pg) by apply run_timers, mount_timers.
  unfold timers_bounded in Hb. subst pg'. cbn [step timeouts helperCalls].
  assert (Hfil : forall l : list nat,
            Forall (fun due : nat => (due <= clock pg + 300)%nat) l ->
            filter (fun due : nat => (clock pg + ms < due)%nat) l = [] /\
            filter (fun due : nat => (due <= clock pg + ms)%nat) l = l).
  { induction 1 as [| due l Hdue _ [IH1 IH2]]; [split; reflexivity |].
    cbn [filter list_filter].
    rewrite decide_False by lia. rewrite decide_True by lia.
    split; [exact IH1 | f_equal; exact IH2]. }
  destruct (Hfil _ Hb) as [Hnone Hall].
  rewrite Hnone, Hall. split; [reflexivity | apply requests_fired].
Qed.



End Paging.

Lemma advance_after_result_witness :
  on_result sample_parseURL sample_isRegexpStringMatch None
            (sample_results "install" 0)
  = Normal [type_update (update_value sample_items (sample_results "install" 0))] /\
  lastPage
    (reducer "install"
       (reducer "install" initialSearchResultState
          (type_update (update_value sample_items (sample_results "install" 0))))
       type_advance)
  = Some 1.
Proof.
  assert (H1 : on_result sample_parseURL sample_isRegexpStringMatch None
                 (sample_results "install" 0)
               = Normal [type_update
                           (update_value sample_items (sample_results "install" 0))])
    by (vm_compute; reflexivity).
  split; [exact H1 |].
  exact (proj1 (proj2 (advance_after_result sample_parseURL
                         sample_isRegexpStringMatch None
                         (sample_results "install" 0)
                         initialSearchResultState _ H1))
           eq_refl).
Defined.

Lemma stale_result_ignored_witness :
  isArray (r_hits (sample_results "inst" 0)) = true /\
  r_query (sample_results "inst" 0) <> "" /\
  r_query (sample_results "inst" 0) <> cur_searchQuery sample_page /\
  step sample_parseURL sample_isRegexpStringMatch None "en" sample_page
       (helperResult (sample_results "inst" 0))
  = sample_page.
Proof.
  assert (H2 : r_query (sample_results "inst" 0) <> "") by discriminate.
  assert (H3 : r_query (sample_results "inst" 0) <> cur_searchQuery sample_page)
    by discriminate.
  split; [reflexivity | split; [exact H2 | split; [exact H3 |]]].
  exact (stale_result_ignored sample_parseURL sample_isRegexpStringMatch None
           "en" sample_page (sample_results "inst" 0) eq_refl H2 H3).
Defined.

Lemma sample_items_built :
  mapC (toItem sample_parseURL sample_isRegexpStringMatch None)
       [sample_hit "/docs/a"; sample_hit "/docs/b"]
  = Normal sample_items.
Proof. vm_compute. reflexivity. Defined.

Lemma result_accepted_witness :
  r_query (sample_results "install" 0) = cur_searchQuery sample_page /\
  cur_searchQuery sample_page <> "" /\
  (r_page (sample_results "install" 0) = 0 \/
   lastPage (searchResultState sample_page)
   = Some (r_page (sample_results "install" 0))) /\
  items (searchResultState
           (step sample_parseURL sample_isRegexpStringMatch None "en"
                 sample_page (helperResult (sample_results "install" 0))))
  = sample_items.
Proof.
  assert (H2 : cur_searchQuery sample_page <> "") by discriminate.
  split; [reflexivity | split; [exact H2 | split; [left; reflexivity |]]].
  exact (proj1 (result_accepted sample_parseURL sample_isRegexpStringMatch None
                  "en" sample_page (sample_results "install" 0) _ sample_items
                  eq_refl H2 eq_refl sample_items_built (or_introl eq_refl))).
Defined.

Lemma result_accepted_after_version_change_witness :
  cur_searchQuery sample_page <> "" /\
  r_query (sample_results "install" 0) = cur_searchQuery sample_page /\
  r_page (sample_results "install" 0) = 0 /\
  items (searchResultState
           (run sample_parseURL sample_isRegexpStringMatch None "en" sample_page
                [selectVersion "default" "1.0.0";
                 helperResult (sample_results "install" 0)]))
  = sample_items.
Proof.
  assert (H1 : cur_searchQuery sample_page <> "") by discriminate.
  split; [exact H1 | split; [reflexivity | split; [reflexivity |]]].
  exact (proj1 (proj2 (result_accepted_after_version_change sample_parseURL
                         sample_isRegexpStringMatch None "en" sample_page
                         "default" "1.0.0" (sample_results "install" 0) _
                         sample_items H1 eq_refl eq_refl sample_items_built
                         eq_refl))).
Defined.

Lemma scroll_requests_next_page_witness :
  totalPages (searchResultState sample_page) = Some 3 /\
  lastPage (searchResultState sample_page) = Some 0 /\
  0 <= 0 /\ 0 + 1 < 3 /\ 800 < prevY sample_page /\
  requests
    (helperCalls
       (step sample_parseURL sample_isRegexpStringMatch None "en" sample_page
             (intersection true 800)))
  = [("install", 1)].
Proof.
  assert (H3 : 0 <= 0) by lia.
  assert (H4 : 0 + 1 < 3) by lia.
  assert (H5 : 800 < prevY sample_page) by (cbn; lia).
  split; [reflexivity | split; [reflexivity |]].
  split; [exact H3 | split; [exact H4 | split; [exact H5 |]]].
  destruct (scroll_requests_next_page sample_parseURL sample_isRegexpStringMatch
              None "en" sample_page 800 3 0 eq_refl eq_refl H3 H4 H5)
    as (_ & Hcalls & Hreq & _).
  rewrite Hcalls. exact Hreq.
Defined.

Lemma scroll_guard_witness :
  (false = false \/ prevY sample_page <= 950) /\
  step sample_parseURL sample_isRegexpStringMatch None "en" sample_page
       (intersection false 950)
  = with_prevY sample_page 950.
Proof.
  split; [left; reflexivity |].
  exact (proj1 (scroll_guard sample_parseURL sample_isRegexpStringMatch None
                  "en" sample_page false 950 (or_introl eq_refl))).
Defined.

Lemma scroll_at_last_page_witness :
  totalPages (searchResultState last_page) = Some 3 /\
  lastPage (searchResultState last_page) = Some 2 /\
  3 <= 2 + 1 /\ 800 < prevY last_page /\
  helperCalls
    (step sample_parseURL sample_isRegexpStringMatch None "en" last_page
          (intersection true 800))
  = helperCalls last_page.
Proof.
  assert (H3 : 3 <= 2 + 1) by lia.
  assert (H4 : 800 < prevY last_page) by (cbn; lia).
  split; [reflexivity | split; [reflexivity |]].
  split; [exact H3 | split; [exact H4 |]].
  exact (proj1 (proj2 (proj2 (scroll_at_last_page sample_parseURL
                                sample_isRegexpStringMatch None "en" last_page
                                800 3 2 eq_refl eq_refl H3 H4)))).
Defined.

Lemma clear_query_witness :
  timeouts (mount "en" "" ∅) = [] /\
  "a" <> cur_searchQuery (mount "en" "" ∅) /\ "a" <> "" /\ (100 < 300)%nat /\
  searchResultState
    (step sample_parseURL sample_isRegexpStringMatch None "en"
          (run sample_parseURL sample_isRegexpStringMatch None "en"
               (mount "en" "" ∅) [setSearchQuery "a"; elapse 100])
          (setSearchQuery ""))
  = initialSearchResultState.
Proof.
  assert (H2 : "a" <> cur_searchQuery (mount "en" "" ∅)) by discriminate.
  assert (H3 : "a" <> "") by discriminate.
  assert (H4 : (100 < 300)%nat) by lia.
  split; [reflexivity | split; [exact H2 | split; [exact H3 | split; [exact H4 |]]]].
  exact (proj1 (clear_query sample_parseURL sample_isRegexpStringMatch None "en"
                  (mount "en" "" ∅) "a" 100 eq_refl H2 H3 H4)).
Defined.

Lemma timers_fire_within_delay_witness :
  (300 <= 300)%nat /\
  timeouts
    (step sample_parseURL sample_isRegexpStringMatch None "en"
          (run sample_parseURL sample_isRegexpStringMatch None "en"
               (mount "en" "" ∅)
               [setSearchQuery "a"; elapse 100; setSearchQuery "ab"])
          (elapse 300))
  = [].
Proof.
  assert (H1 : (300 <= 300)%nat) by lia.
  split; [exact H1 |].
  exact (proj1 (timers_fire_within_delay sample_parseURL
                  sample_isRegexpStringMatch None "en" "" ∅
                  [setSearchQuery "a"; elapse 100; setSearchQuery "ab"] 300 H1)).
Defined.


(* ===================================================================== *)
(** * Further properties: the version selection *)
(* ===================================================================== *)

Lemma versions_all_or_some_empty (l : list (string * GlobalPluginData)) :
  Forall (fun e => versions e.2 <> []) l \/
  Exists (fun e => versions e.2 = []) l.
Proof.
  induction l as [| e l [IH | IH]].
  - left. constructor.
  - destruct (versions e.2) as [| v vs] eqn:Hv.
    + right. left. exact Hv.
    + left. constructor; [rewrite Hv; discriminate | exact IH].
  - right. right. exact IH.
Qed.

Lemma initSearchVersions_lookup (allDocsData : gmap string GlobalPluginData)
    (sv : gmap string string) :
  initSearchVersions allDocsData = Normal sv ->
  (forall id, sv !! id = allDocsData !! id ≫= firstVersionName) /\
  (forall id pd, allDocsData !! id = Some pd -> versions pd <> []).
Proof.
  intros Hinit. unfold initSearchVersions in Hinit.
  destruct (versions_all_or_some_empty (map_to_list allDocsData)) as [Hall | Hex].
  - destruct (reduceC_initVersionStep_normal (map_to_list allDocsData)
                (NoDup_fst_map_to_list allDocsData) Hall ∅) as (sv' & Hsv' & Hlook).
    assert (sv' = sv) by congruence. subst sv'. split.
    + intros id. rewrite Hlook, list_to_map_to_list.
      destruct (allDocsData !! id); [reflexivity | apply lookup_empty].
    + intros id pd Hin. rewrite Forall_forall in Hall.
      apply (Hall (id, pd)). apply elem_of_map_to_list. exact Hin.
  - rewrite (reduceC_initVersionStep_throw _ Hex) in Hinit. discriminate Hinit.
Qed.

Lemma select_list_elem (allDocsData : gmap string GlobalPluginData)
    (sv : gmap string string) (sel : VersionSelect) :
  In sel (SearchVersionSelectList allDocsData sv) ->
  exists pd prefix,
    allDocsData !! sel_key sel = Some pd /\
    (1 < length (versions pd))%nat /\
    sel_defaultValue sel = sv !! sel_key sel /\
    sel_options sel
    = (fun version => {| opt_label := prefix +:+ label version;
                         opt_value := name version |}) <$> versions pd.
Proof.
  intros Hin. unfold SearchVersionSelectList in Hin.
  apply list_elem_of_In, list_elem_of_fmap in Hin as ([id pd] & -> & Hin).
  unfold versionedPluginEntries in Hin.
  apply list_elem_of_filter in Hin as [Hlen Hin].
  apply elem_of_map_to_list in Hin. cbn [fst snd] in *.
  eexists pd, _. cbn [sel_key sel_defaultValue sel_options].
  repeat split; [exact Hin | exact Hlen].
Qed.

Lemma initSearchVersions_valid (allDocsData : gmap string GlobalPluginData)
    (sv : gmap string string) :
  initSearchVersions allDocsData = Normal sv -> valid_selection allDocsData sv.
Proof.
  intros Hinit. destruct (initSearchVersions_lookup _ _ Hinit) as [Hlook Hne].
  split.
  - apply set_eq. intros id. rewrite !elem_of_dom, Hlook.
    destruct (allDocsData !! id) as [pd |] eqn:Hpd; cbn.
    + split; [eauto |]. intros _. unfold firstVersionName.
      specialize (Hne id pd Hpd). destruct (versions pd); [contradiction |].
      cbn. eauto.
    + split; intros [? ?]; discriminate.
  - intros id v Hv. rewrite Hlook in Hv.
    destruct (allDocsData !! id) as [pd |]; [| discriminate].
    exists pd. split; [reflexivity |]. cbn in Hv. unfold firstVersionName in Hv.
    destruct (versions pd) as [| v0 vs]; [discriminate |].
    cbn in Hv. injection Hv as <-. left. reflexivity.
Qed.

Lemma select_change_valid (allDocsData : gmap string GlobalPluginData)
    (sv : gmap string string) (sel : VersionSelect) (o : SelectOption) :
  valid_selection allDocsData sv ->
  In sel (SearchVersionSelectList allDocsData sv) ->
  In o (sel_options sel) ->
  valid_selection allDocsData (setSearchVersion (sel_key sel) (opt_value o) sv).
Proof.
  intros [Hdom Hval] Hsel Ho.
  destruct (select_list_elem _ _ _ Hsel) as (pd & prefix & Hpd & _ & _ & Hopts).
  rewrite Hopts in Ho.
  apply list_elem_of_In, list_elem_of_fmap in Ho as (version & -> & Hversion).
  cbn [opt_value]. unfold setSearchVersion. split.
  - rewrite dom_insert_L, Hdom.
    assert (sel_key sel ∈ dom allDocsData) by (apply elem_of_dom; eauto).
    apply set_eq. intros x. rewrite elem_of_union, elem_of_singleton.
    split; [intros [-> | Hx]; assumption | auto].
  - intros id v Hv. destruct (decide (sel_key sel = id)) as [<- | Hne].
    + rewrite lookup_insert_eq in Hv. injection Hv as <-.
      exists pd. split; [exact Hpd |].
      apply list_elem_of_In, list_elem_of_fmap. eauto.
    + rewrite lookup_insert_ne in Hv by exact Hne. eauto.
Qed.

(** X17. Whatever options the user chooses in the rendered selects, the
    version selection has an entry for exactly the docs plugin instances of
    the site, each naming one of that instance's versions; so every search
    is refined by the two fixed values and one version tag per docs plugin
    instance, including the instances with a single version. *)
Theorem selection_stays_valid (allDocsData : gmap string GlobalPluginData)
    (sv : gmap string string) (currentLocale searchQuery : string)
    (page : option Z) :
  selection_reachable allDocsData sv ->
  valid_selection allDocsData sv /\
  length (refinements (makeSearch currentLocale searchQuery sv page))
  = (2 + size allDocsData)%nat.
Proof.
  intros Hreach.
  assert (Hvalid : valid_selection allDocsData sv).
  { induction Hreach as [sv Hinit | sv sel o _ IH Hsel Ho].
    - apply initSearchVersions_valid, Hinit.
    - apply select_change_valid; assumption. }
  split; [exact Hvalid |].
  rewrite makeSearch_refinements. cbn [length].
  rewrite length_fmap, length_map_to_list.
  destruct Hvalid as [Hdom _].
  rewrite <- !size_dom, Hdom. reflexivity.
Qed.

(** X18. The version column is rendered exactly when it contains a select:
    [versioningEnabled] holds if and only if some docs plugin instance has
    more than one version, which is when the select list is not empty. Each
    select belongs to another instance and offers all versions of its
    instance, which are at least two. *)
Theorem versioningEnabled_selects (allDocsData : gmap string GlobalPluginData)
    (sv : gmap string string) :
  (versioningEnabled allDocsData = true <->
   SearchVersionSelectList allDocsData sv <> []) /\
  (versioningEnabled allDocsData = true <->
   exists id pd, allDocsData !! id = Some pd /\ (1 < length (versions pd))%nat) /\
  NoDup (sel_key <$> SearchVersionSelectList allDocsData sv) /\
  (forall sel, In sel (SearchVersionSelectList allDocsData sv) ->
     exists pd, allDocsData !! sel_key sel = Some pd /\
                opt_value <$> sel_options sel = name <$> versions pd /\
                (2 <= length (sel_options sel))%nat).
Proof.
  assert (Hen : versioningEnabled allDocsData = true <->
                exists e, e ∈ map_to_list allDocsData /\
                          (1 < length (versions e.2))%nat).
  { unfold versioningEnabled. rewrite existsb_exists. split.
    - intros (e & Hin & Hlt). exists e. split; [apply list_elem_of_In, Hin |].
      apply Nat.ltb_lt, Hlt.
    - intros (e & Hin & Hlt). exists e. split; [apply list_elem_of_In, Hin |].
      apply Nat.ltb_lt, Hlt. }
  split; [| split; [| split]].
  - rewrite Hen. unfold SearchVersionSelectList. split.
    + intros (e & Hin & Hlt) Hnil. apply fmap_nil_inv in Hnil.
      assert (He : e ∈ versionedPluginEntries allDocsData)
        by (apply list_elem_of_filter; split; assumption).
      rewrite Hnil in He. inversion He.
    + intros Hne. destruct (versionedPluginEntries allDocsData) as [| e l] eqn:Hl;
        [contradiction |].
      assert (He : e ∈ versionedPluginEntries allDocsData)
        by (rewrite Hl; left).
      apply list_elem_of_filter in He as [Hlt Hin]. eauto.
  - rewrite Hen. split.
    + intros ([id pd] & Hin & Hlt). apply elem_of_map_to_list in Hin. eauto.
    + intros (id & pd & Hin & Hlt). exists (id, pd).
      split; [apply elem_of_map_to_list, Hin | exact Hlt].
  - unfold SearchVersionSelectList. rewrite <- list_fmap_compose.
    change (NoDup ((versionedPluginEntries allDocsData).*1)).
    unfold versionedPluginEntries.
    apply (sublist_NoDup _ _ (NoDup_fst_map_to_list allDocsData)).
    apply fmap_sublist, sublist_filter.
  - intros sel Hsel.
    destruct (select_list_elem _ _ _ Hsel) as (pd & prefix & Hpd & Hlen & _ & Hopts).
    exists pd. rewrite Hopts, <- list_fmap_compose, length_fmap.
    split; [exact Hpd | split; [reflexivity | lia]].
Qed.

(** X19. With the initial selection, every select starts on its first
    option: its default value is the name of the first version of its
    docs plugin instance. *)
Theorem select_default_first_option
    (allDocsData : gmap string GlobalPluginData) (sv : gmap string string)
    (sel : VersionSelect) :
  initSearchVersions allDocsData = Normal sv ->
  In sel (SearchVersionSelectList allDocsData sv) ->
  exists o os,
    sel_options sel = o :: os /\
    sel_defaultValue sel = Some (opt_value o).
Proof.
  intros Hinit Hsel.
  destruct (initSearchVersions_lookup _ _ Hinit) as [Hlook _].
  destruct (select_list_elem _ _ _ Hsel) as (pd & prefix & Hpd & Hlen & Hdef & Hopts).
  rewrite Hdef, Hlook, Hpd, Hopts. cbn. unfold firstVersionName.
  destruct (versions pd) as [| v vs]; [cbn in Hlen; lia |].
  cbn. eauto.
Qed.

Lemma selection_stays_valid_witness :
  selection_reachable docs_two_plugins
    (setSearchVersion "community" "0.9.0"
       {[ "default" := "current"; "community" := "1.0.0" ]}) /\
  length (refinements
            (makeSearch "en" "install"
               (setSearchVersion "community" "0.9.0"
                  {[ "default" := "current"; "community" := "1.0.0" ]})
               None))
  = (2 + size docs_two_plugins)%nat.
Proof.
  assert (Hreach : selection_reachable docs_two_plugins
            (setSearchVersion "community" "0.9.0"
               {[ "default" := "current"; "community" := "1.0.0" ]})).
  { apply (selection_changed docs_two_plugins
             {[ "default" := "current"; "community" := "1.0.0" ]}
             community_select
             {| opt_label := "0.9"; opt_value := "0.9.0" |}).
    - apply selection_initial. vm_compute. reflexivity.
    - vm_compute. left. reflexivity.
    - right. left. reflexivity. }
  split; [exact Hreach |].
  exact (proj2 (selection_stays_valid docs_two_plugins _ "en" "install" None
                  Hreach)).
Defined.

Lemma versioningEnabled_selects_witness :
  versioningEnabled docs_two_plugins = true /\
  SearchVersionSelectList docs_two_plugins ∅ <> [].
Proof.
  split; [reflexivity |].
  exact (proj1 (proj1 (versioningEnabled_selects docs_two_plugins ∅)) eq_refl).
Defined.

Lemma select_default_first_option_witness :
  initSearchVersions docs_two_plugins
  = Normal {[ "default" := "current"; "community" := "1.0.0" ]} /\
  In community_select
     (SearchVersionSelectList docs_two_plugins
        {[ "default" := "current"; "community" := "1.0.0" ]}) /\
  exists o os,
    sel_options community_select = o :: os /\
    sel_defaultValue community_select = Some (opt_value o).
Proof.
  assert (Hinit : initSearchVersions docs_two_plugins
                  = Normal {[ "default" := "current"; "community" := "1.0.0" ]})
    by (vm_compute; reflexivity).
  assert (Hsel : In community_select
                    (SearchVersionSelectList docs_two_plugins
                       {[ "default" := "current"; "community" := "1.0.0" ]}))
    by (vm_compute; left; reflexivity).
  split; [exact Hinit | split; [exact Hsel |]].
  exact (select_default_first_option docs_two_plugins _ community_select
           Hinit Hsel).
Defined.

(* ===================================================================== *)
(** * Further properties: what the page shows *)
(* ===================================================================== *)

(** X20. The three alternatives of the results area exclude each other:
    when results are shown, neither the "No results" text nor the spinner
    is; the text and the spinner are never shown together; without results
    and with a non-empty query exactly one of the two is shown; and with an
    empty query the text is never shown. *)
Theorem render_exclusive (searchQuery : string) (st : ResultDispatcherState) :
  let v := render searchQuery st in
  (v_results v <> [] -> v_noResults v = false /\ v_spinner v = false) /\
  (v_noResults v = true -> v_spinner v = false) /\
  (items st = [] -> searchQuery <> "" -> v_noResults v = negb (v_spinner v)) /\
  (searchQuery = "" -> v_noResults v = false).
Proof.
  unfold render. cbn [v_results v_noResults v_spinner].
  destruct (items st) as [| it its]; cbn [length Nat.ltb Nat.leb].
  - split; [| split; [| split]].
    + intros Habs. contradiction.
    + intros Hno. apply andb_true_iff in Hno as [_ Hno].
      destruct (truthy_bool (loading st)); [discriminate | reflexivity].
    + intros _ Hq. rewrite (truthy_string_nonempty _ Hq). reflexivity.
    + intros ->. reflexivity.
  - split; [| split; [| split]].
    + intros _. split; reflexivity.
    + discriminate.
    + discriminate.
    + reflexivity.
Qed.

Lemma render_exclusive_witness :
  items (with_loading initialSearchResultState (Some true)) = [] /\
  "install" <> "" /\
  v_noResults (render "install" (with_loading initialSearchResultState (Some true)))
  = negb (v_spinner (render "install"
                       (with_loading initialSearchResultState (Some true)))).
Proof.
  assert (H2 : "install" <> "") by discriminate.
  split; [reflexivity | split; [exact H2 |]].
  exact (proj1 (proj2 (proj2 (render_exclusive "install"
                                (with_loading initialSearchResultState (Some true)))))
           eq_refl H2).
Defined.

Section Display.

Variable parseURL : string -> Completion URL.
Variable isRegexpStringMatch : option string -> string -> bool.
Variable externalUrlRegex : option string.
Variable currentLocale : string.

Local Abbreviation toItem' := (toItem parseURL isRegexpStringMatch externalUrlRegex).
Local Abbreviation on_result' := (on_result parseURL isRegexpStringMatch externalUrlRegex).
Local Abbreviation pstep := (step parseURL isRegexpStringMatch externalUrlRegex currentLocale).

(** X21. As soon as the query changes to a non-empty string, the page shows
    the spinner and nothing else: the previous results, count and loader
    are gone. The passing of time alone does not change what is shown. *)
Theorem render_while_loading (pg : Page) (q : string) (ms : nat) :
  q <> cur_searchQuery pg -> q <> "" ->
  let pg' := pstep pg (setSearchQuery q) in
  let spinner_only :=
    {| v_documentsFound := None; v_results := []; v_noResults := false;
       v_spinner := true; v_loader := false |} in
  shown pg' = spinner_only /\
  shown (pstep pg' (elapse ms)) = spinner_only.
Proof.
  intros Hq Hne pg' spinner_only. subst pg' spinner_only.
  rewrite (step_setSearchQuery_nonempty _ _ _ _ pg q Hq Hne).
  unfold shown, render.
  cbn [step cur_searchQuery searchResultState with_loading
       initialSearchResultState items totalResults loading hasMore
       length Nat.ltb Nat.leb truthy_number truthy_bool negb].
  rewrite (truthy_string_nonempty _ Hne).
  split; reflexivity.
Qed.

(** X22. With a non-empty query, an empty or malformed result makes the
    page show "No results were found" and nothing else, and so does a
    first page without hits for the current query that reports no hit. *)
Theorem render_no_results (pg : Page) (results : SearchResults) :
  cur_searchQuery pg <> "" ->
  r_query results = "" \/ isArray (r_hits results) = false \/
  (r_query results = cur_searchQuery pg /\ r_hits results = HitsArray [] /\
   r_page results = 0 /\ r_nbHits results = 0 /\ r_nbPages results <= 1) ->
  shown (pstep pg (helperResult results))
  = {| v_documentsFound := None; v_results := []; v_noResults := true;
       v_spinner := false; v_loader := false |}.
Proof.
  intros Hq Hcase.
  assert (Hreset : r_query results = "" \/ isArray (r_hits results) = false ->
            on_result' results = Normal [type_reset]).
  { intros Hbad. unfold on_result. destruct Hbad as [Hq0 | Hhits].
    - rewrite Hq0. reflexivity.
    - rewrite Hhits. rewrite orb_true_r. reflexivity. }
  unfold shown.
  assert (Hsame : forall actions,
            cur_searchQuery (dispatchAll currentLocale pg actions)
            = cur_searchQuery pg) by reflexivity.
  destruct Hcase as [H | [H | (Hcur & Hhits & Hp & Hn & Hnp)]].
  - cbn [step]. rewrite Hreset by (left; exact H). rewrite Hsame.
    unfold render. rewrite (truthy_string_nonempty _ Hq). reflexivity.
  - cbn [step]. rewrite Hreset by (right; exact H). rewrite Hsame.
    unfold render. rewrite (truthy_string_nonempty _ Hq). reflexivity.
  - cbn [step].
    rewrite (on_result_array parseURL isRegexpStringMatch externalUrlRegex
               results [] []) by (rewrite ?Hcur; auto).
    rewrite Hsame.
    unfold dispatchAll. cbn [foldl reducer query commit searchResultState].
    rewrite Hcur.
    destruct (decide (Some (cur_searchQuery pg) = Some (cur_searchQuery pg)));
      [| contradiction].
    rewrite Hp, Hn. cbn [lastPage].
    destruct (decide (Some 0 = Some 0)); [| contradiction].
    unfold render. rewrite (truthy_string_nonempty _ Hq).
    cbn [items totalResults loading hasMore length Nat.ltb Nat.leb
         truthy_number truthy_bool negb andb Z.eqb].
    destruct (Z.ltb_spec (0 + 1) (r_nbPages results)); [lia | reflexivity].
Qed.

(** X23. A first page with at least one hit for the current query is shown
    at once: the items built from the hits, the number of documents found
    unless it is 0, and the loader exactly when a further page exists;
    neither the spinner nor the "No results" text remains. *)
Theorem render_results (pg : Page) (results : SearchResults)
    (h : Hit) (hits : list Hit) (its : list Item) :
  r_query results = cur_searchQuery pg ->
  cur_searchQuery pg <> "" ->
  r_hits results = HitsArray (h :: hits) ->
  mapC toItem' (h :: hits) = Normal its ->
  r_page results = 0 ->
  shown (pstep pg (helperResult results))
  = {| v_documentsFound :=
         if r_nbHits results =? 0 then None else Some (r_nbHits results);
       v_results := its;
       v_noResults := false;
       v_spinner := false;
       v_loader := bool_decide (r_nbPages results > 1) |}.
Proof.
  intros Hcur Hq Hhits Hits Hp. unfold shown. cbn [step].
  rewrite (on_result_array parseURL isRegexpStringMatch externalUrlRegex
             results (h :: hits) its) by (rewrite ?Hcur; auto).
  unfold dispatchAll. cbn [foldl reducer query commit searchResultState
                           cur_searchQuery].
  rewrite Hcur.
  destruct (decide (Some (cur_searchQuery pg) = Some (cur_searchQuery pg)));
    [| contradiction].
  rewrite Hp. cbn [lastPage].
  destruct (decide (Some 0 = Some 0)); [| contradiction].
  assert (Hlen : exists it its', its = it :: its').
  { apply mapC_Forall2 in Hits. inversion Hits; subst. eauto. }
  destruct Hlen as (it & its' & ->).
  unfold render. cbn [items totalResults loading hasMore length Nat.ltb Nat.leb
                      truthy_number truthy_bool].
  f_equal.
  - destruct (r_nbHits results =? 0); reflexivity.
  - destruct (Z.ltb_spec (0 + 1) (r_nbPages results)).
    + rewrite bool_decide_eq_true_2 by lia. reflexivity.
    + rewrite bool_decide_eq_false_2 by lia. reflexivity.
Qed.

End Display.

Lemma render_while_loading_witness :
  "installation" <> cur_searchQuery sample_page /\ "installation" <> "" /\
  shown (step sample_parseURL sample_isRegexpStringMatch None "en" sample_page
              (setSearchQuery "installation"))
  = {| v_documentsFound := None; v_results := []; v_noResults := false;
       v_spinner := true; v_loader := false |}.
Proof.
  assert (H1 : "installation" <> cur_searchQuery sample_page) by discriminate.
  assert (H2 : "installation" <> "") by discriminate.
  split; [exact H1 | split; [exact H2 |]].
  exact (proj1 (render_while_loading sample_parseURL sample_isRegexpStringMatch
                  None "en" sample_page "installation" 100 H1 H2)).
Defined.

Lemma render_no_results_witness :
  cur_searchQuery sample_page <> "" /\
  isArray (r_hits malformed_results) = false /\
  shown (step sample_parseURL sample_isRegexpStringMatch None "en" sample_page
              (helperResult malformed_results))
  = {| v_documentsFound := None; v_results := []; v_noResults := true;
       v_spinner := false; v_loader := false |}.
Proof.
  assert (H1 : cur_searchQuery sample_page <> "") by discriminate.
  split; [exact H1 | split; [reflexivity |]].
  exact (render_no_results sample_parseURL sample_isRegexpStringMatch None "en"
           sample_page malformed_results H1 (or_intror (or_introl eq_refl))).
Defined.

Lemma render_results_witness :
  r_query (sample_results "install" 0) = cur_searchQuery sample_page /\
  cur_searchQuery sample_page <> "" /\
  r_page (sample_results "install" 0) = 0 /\
  shown (step sample_parseURL sample_isRegexpStringMatch None "en" sample_page
              (helperResult (sample_results "install" 0)))
  = {| v_documentsFound := Some 6; v_results := sample_items;
       v_noResults := false; v_spinner := false; v_loader := true |}.
Proof.
  assert (H2 : cur_searchQuery sample_page <> "") by discriminate.
  split; [reflexivity | split; [exact H2 | split; [reflexivity |]]].
  exact (render_results sample_parseURL sample_isRegexpStringMatch None "en"
           sample_page (sample_results "install" 0) _ _ sample_items
           eq_refl H2 eq_refl sample_items_built eq_refl).
Defined.

Lemma advance_null_reachable_witness :
  totalPages (searchResultState
                (run sample_parseURL sample_isRegexpStringMatch None "en"
                     (mount "en" "" ∅) search_then_retype))
  = None /\
  reducer "installation"
          (searchResultState
             (run sample_parseURL sample_isRegexpStringMatch None "en"
                  (mount "en" "" ∅) search_then_retype))
          type_advance
  = with_paging (with_loading initialSearchResultState (Some true))
                None (Some false).
Proof.
  assert (H : totalPages
                (searchResultState
                   (run sample_parseURL sample_isRegexpStringMatch None "en"
                        (mount "en" "" ∅) search_then_retype))
              = None) by (vm_compute; reflexivity).
  split; [exact H |].
  rewrite (proj2 (advance_null_reachable sample_parseURL
                    sample_isRegexpStringMatch None "en" "" ∅
                    search_then_retype "installation")
             (or_introl H)).
  vm_compute. reflexivity.
Defined.
